(** * The execution loop and key-length sweep of [execution_in_loop.py]

    A shallow embedding of the two functions of the script, [executionLoop]
    and [run_notebook_in_loop], over an explicit model of the effects they
    perform: lines printed, child processes spawned with [subprocess.run],
    the existence test on the notebook path, and the two ways a Python call
    can end abruptly here ([exit()] and a raised [Exception]). *)

From Stdlib Require Import ZArith List String Ascii Bool Lia.
From Stdlib Require Import DecimalString DecimalPos DecimalZ.
Import ListNotations.
Local Open Scope string_scope.
Local Open Scope Z_scope.

(** ** Python values *)

(** [str(n)] for a Python [int]: decimal digits, a leading [-] when negative. *)
Definition str (n : Z) : string := NilZero.string_of_int (Z.to_int n).

(** The values the [key_length] argument takes: [None] (its default), an
    [int] (a typed key length, or [currentKey] in range mode), or a [str]
    (['e'] for the example, ['i'] for a range). *)
Inductive KeyLength : Type :=
| KNone
| KInt (v : Z)
| KStr (s : string).

(** Truth value of [key_length] as tested by [if key_length]. *)
Definition truthy (k : KeyLength) : bool :=
  match k with
  | KNone => false
  | KInt v => negb (v =? 0)
  | KStr s => negb (s =? "")%string
  end.

(** Text an f-string field [{...}] produces for the value. *)
Definition format (k : KeyLength) : string :=
  match k with
  | KNone => "None"
  | KInt v => str v
  | KStr s => s
  end.

(** [key_length == 'i'] *)
Definition is_interval (k : KeyLength) : bool :=
  match k with
  | KStr s => (s =? "i")%string
  | _ => false
  end.

(** [range(start, stop)] *)
Definition range (start stop : Z) : list Z :=
  map (fun i => start + Z.of_nat i) (seq 0 (Z.to_nat (stop - start))).

(** The line feed [\n] that ends every field of the text fed to the script. *)
Definition LF : string := String "010"%char EmptyString.

(** [s.replace(old, new)] for a non-empty [old]: occurrences are replaced
    from the left and do not overlap; [skip] counts the characters of a
    matched occurrence that are still to be dropped. *)
Fixpoint replace_from (old new : string) (skip : nat) (s : string) : string :=
  match s with
  | EmptyString => EmptyString
  | String c s' =>
      match skip with
      | S k => replace_from old new k s'
      | O =>
          if prefix old s
          then new ++ replace_from old new (pred (length old)) s'
          else String c (replace_from old new O s')
      end
  end.

Definition replace (old new s : string) : string := replace_from old new O s.

(** ** Effects *)

(** What [subprocess.run] does: it returns a [CompletedProcess] carrying the
    child's return code, or raises an [Exception] (the program could not be
    started), kept here as the text [print(e)] shows. *)
Inductive ProcResult : Type :=
| Completed (returncode : Z)
| Failed (e : string).

(** The observable actions, in the order they happen. *)
Inductive Event : Type :=
| EPrint (line : string)
| ESubprocess (args : list string) (input : option string) (r : ProcResult).

(** How a call ends: it returns, [exit()] raised [SystemExit] (which
    [except Exception] does not catch), or an [Exception] is propagating. *)
Inductive Result (A : Type) : Type :=
| Ret (a : A)
| SystemExit
| Raised (e : string).

Arguments Ret {A} a.
Arguments SystemExit {A}.
Arguments Raised {A} e.

(** The outcome of running a computation: how it ended, how many child
    processes have been spawned so far, and the events it produced. *)
Record Run (A : Type) : Type := mkRun {
  res : Result A;
  calls : nat;
  log : list Event
}.

Arguments mkRun {A} res calls log.
Arguments res {A} r.
Arguments calls {A} r.
Arguments log {A} r.

(** A computation starts from the number of child processes spawned before it. *)
Definition M (A : Type) : Type := nat -> Run A.

Definition ret {A : Type} (a : A) : M A := fun n => mkRun (Ret a) n [].

Definition bind {A B : Type} (m : M A) (f : A -> M B) : M B := fun n =>
  let r := m n in
  match res r with
  | Ret a => let r' := f a (calls r) in mkRun (res r') (calls r') (log r ++ log r')
  | SystemExit => mkRun SystemExit (calls r) (log r)
  | Raised e => mkRun (Raised e) (calls r) (log r)
  end.

Declare Scope py_scope.
Delimit Scope py_scope with py.
Notation "x <- c1 ;; c2" := (bind c1 (fun x => c2))
  (at level 61, c1 at next level, right associativity) : py_scope.
Notation "c1 ;; c2" := (bind c1 (fun _ => c2))
  (at level 61, right associativity) : py_scope.
Local Open Scope py_scope.

(** [print(line)] *)
Definition print (line : string) : M unit := fun n => mkRun (Ret tt) n [EPrint line].

(** [exit()] *)
Definition exit {A : Type} : M A := fun n => mkRun SystemExit n [].

(** [try: body except Exception as e: handler(e)] *)
Definition try_except {A : Type} (body : M A) (handler : string -> M A) : M A := fun n =>
  let r := body n in
  match res r with
  | Raised e => let r' := handler e (calls r) in mkRun (res r') (calls r') (log r ++ log r')
  | _ => r
  end.

(** [for a in l: body(a)] *)
Fixpoint for_each {A : Type} (l : list A) (body : A -> M unit) : M unit :=
  match l with
  | [] => ret tt
  | a :: l' => body a ;; for_each l' body
  end.

(** ** The script *)

Section Script.

(** The environment of one execution of the script: [os.path.exists], and
    what the [n]-th call of [subprocess.run] (counted from 0) results in. *)
Variable path_exists : string -> bool.
Variable proc : nat -> ProcResult.

(** [subprocess.run(args, input=input, text=True)], returning the return code. *)
Definition subprocess_run (args : list string) (input : option string) : M Z := fun n =>
  match proc n with
  | Completed c => mkRun (Ret c) (S n) [ESubprocess args input (Completed c)]
  | Failed e => mkRun (Raised e) (S n) [ESubprocess args input (Failed e)]
  end.

(** The text passed to the script via stdin (lines 41-47). *)
Definition inputs (execute_on_which_device : Z) (token : option string)
    (key_length : KeyLength) (filename : string) : string :=
  if execute_on_which_device =? 1 then
    match token with
    | Some token =>
        str execute_on_which_device ++ LF ++ token ++ LF ++ (if truthy key_length then format key_length else "e") ++ LF ++ filename ++ LF
    | None =>
        str execute_on_which_device ++ LF ++ (if truthy key_length then format key_length else "e") ++ LF ++ filename ++ LF
    end
  else
    str execute_on_which_device ++ LF ++ (if truthy key_length then format key_length else "e") ++ LF ++ filename ++ LF.

Definition executionLoop (script_name : string) (loop_count : Z)
    (execute_on_which_device : Z) (token : option string)
    (key_length : KeyLength) (filename : string) : M unit :=
  for_each (range 0 loop_count) (fun i =>
    print ("------ EXECUTION NUMBER " ++ str (i + 1) ++ " ------") ;;
    try_except
      (returncode <- subprocess_run ["python"; script_name]
         (Some (inputs execute_on_which_device token key_length filename)) ;;
       if negb (returncode =? 0) then
         print ("Execution number " ++ str (i + 1)
                ++ " exited with an error (return code: " ++ str returncode ++ ").") ;;
         print "Next executions won't be executed." ;;
         exit
       else ret tt)
      (fun e => print e ;; exit)).

Definition run_notebook_in_loop (notebook_name : string) (loop_count : Z)
    (execute_on_which_device : Z) (token : option string)
    (key_length : KeyLength) (filename : string)
    (given_range_begin given_range_end : Z) : M unit :=
  if negb (path_exists notebook_name) then
    print ("The file " ++ notebook_name ++ " does not exist.")
  else
    _ <- subprocess_run ["jupyter"; "nbconvert"; "--to"; "script"; notebook_name] None ;;
    let script_name := replace ".ipynb" ".py" notebook_name in
    if is_interval key_length then
      print ("Range: " ++ str given_range_begin ++ " - " ++ str given_range_end) ;;
      for_each (range given_range_begin (given_range_end + 1)) (fun currentKey =>
        print ("Current Key Length to test: " ++ str currentKey) ;;
        executionLoop script_name loop_count execute_on_which_device token
          (KInt currentKey) filename)
    else
      executionLoop script_name loop_count execute_on_which_device token
        key_length filename.

End Script.

(** ** Views on a run *)

(** An invocation of the experiment runner: a child process whose program
    is [python] (the conversion of the notebook spawns [jupyter]). *)
Definition is_invocation (ev : Event) : bool :=
  match ev with
  | ESubprocess (prog :: _) _ _ => (prog =? "python")%string
  | _ => false
  end.

Definition invocations (l : list Event) : list Event := filter is_invocation l.

(** The event is a child process that did not complete with return code 0:
    it reported a nonzero code, or could not be started. *)
Definition failed (ev : Event) : bool :=
  match ev with
  | ESubprocess _ _ (Completed c) => negb (c =? 0)
  | ESubprocess _ _ (Failed _) => true
  | EPrint _ => false
  end.

(** The call does not return normally: [SystemExit] or an exception
    reaches the caller. *)
Definition fails {A : Type} (r : Run A) : Prop :=
  match res r with
  | Ret _ => False
  | _ => True
  end.

(** Two runs end in different terminal states. *)
Definition distinct_terminal {A : Type} (r1 r2 : Run A) : Prop := res r1 <> res r2.

(** The line announcing execution number [i]. *)
Definition banner (i : Z) : string := "------ EXECUTION NUMBER " ++ str i ++ " ------".

(** One invocation of [script_name] as it appears in the log. *)
Definition invocation (script_name : string) (execute_on_which_device : Z)
    (token : option string) (key_length : KeyLength) (filename : string)
    (r : ProcResult) : Event :=
  ESubprocess ["python"; script_name]
    (Some (inputs execute_on_which_device token key_length filename)) r.

(** The conversion of the notebook as it appears in the log. *)
Definition conversion (notebook_name : string) (r : ProcResult) : Event :=
  ESubprocess ["jupyter"; "nbconvert"; "--to"; "script"; notebook_name] None r.

(** The key-length field of the text: [key_length if key_length else 'e']. *)
Definition key_field (key_length : KeyLength) : string :=
  if truthy key_length then format key_length else "e".

(** A sequence of fields on the wire: one line per field. *)
Definition wire (fields : list string) : string :=
  fold_right (fun f rest => f ++ LF ++ rest) "" fields.

(** The fields of the text fed to the script, for a given text of the
    key-length field: the three shapes of lines 41-47. *)
Definition fields (execute_on_which_device : Z) (token : option string)
    (key_text filename : string) : list string :=
  if execute_on_which_device =? 1 then
    match token with
    | Some token => [str execute_on_which_device; token; key_text; filename]
    | None => [str execute_on_which_device; key_text; filename]
    end
  else [str execute_on_which_device; key_text; filename].

(** ** The payload table of the specification

    The definitions of this part follow the words of the specification
    (section 4.1 and the wire contract of section 6); they are what the
    payload built by [inputs] is compared with. *)

Inductive DeviceSelector : Type := Simulator | RealDevice.

(** [deviceSelector] encoded as [0] (Simulator) or [1] (RealDevice). *)
Definition encode (d : DeviceSelector) : Z :=
  match d with
  | Simulator => 0
  | RealDevice => 1
  end.

(** The key length of one invocation: the example sentinel or an integer. *)
Inductive KeyLengthValue : Type := Example | Fixed (v : Z).

(** [keyLengthValue-or-"e"] *)
Definition spec_key_text (k : KeyLengthValue) : string :=
  match k with
  | Example => "e"
  | Fixed v => str v
  end.

(** The three-way table. *)
Definition spec_payload (d : DeviceSelector) (token : option string)
    (k : KeyLengthValue) (outputPath : string) : list string :=
  match d, token with
  | RealDevice, Some t => [str (encode d); t; spec_key_text k; outputPath]
  | RealDevice, None => [str (encode d); spec_key_text k; outputPath]
  | Simulator, _ => [str (encode d); spec_key_text k; outputPath]
  end.

(** The value of [key_length] the script passes for a key length: the
    prompt stores ['e'] for the example and [int(...)] for a number. *)
Definition key_length_arg (k : KeyLengthValue) : KeyLength :=
  match k with
  | Example => KStr "e"
  | Fixed v => KInt v
  end.

(** ** The loop body *)

Section Body.

Variable proc : nat -> ProcResult.

(** The body of the [for] loop of [executionLoop] for index [i]. *)
Definition iteration (script_name : string)
    (execute_on_which_device : Z) (token : option string)
    (key_length : KeyLength) (filename : string) (i : Z) : M unit :=
  print ("------ EXECUTION NUMBER " ++ str (i + 1) ++ " ------") ;;
  try_except
    (returncode <- subprocess_run proc ["python"; script_name]
       (Some (inputs execute_on_which_device token key_length filename)) ;;
     if negb (returncode =? 0) then
       print ("Execution number " ++ str (i + 1)
              ++ " exited with an error (return code: " ++ str returncode ++ ").") ;;
       print "Next executions won't be executed." ;;
       exit
     else ret tt)
    (fun e => print e ;; exit).

(** The body of the [for] loop over the range, for key [currentKey]. *)
Definition sweep_step (script_name : string) (loop_count : Z)
    (execute_on_which_device : Z) (token : option string)
    (filename : string) (currentKey : Z) : M unit :=
  print ("Current Key Length to test: " ++ str currentKey) ;;
  executionLoop proc script_name loop_count execute_on_which_device token
    (KInt currentKey) filename.

End Body.

(** The events of [r] successful executions of one key length, numbered
    from 1. *)
Definition executions (script_name : string) (execute_on_which_device : Z)
    (token : option string) (key_length : KeyLength) (filename : string)
    (r : nat) : list Event :=
  flat_map (fun i =>
      [EPrint (banner (Z.of_nat i));
       invocation script_name execute_on_which_device token key_length filename
         (Completed 0)])
    (seq 1 r).

(** [old] starts at none of the positions of [s] in the text [s ++ tail]. *)
Fixpoint no_match (old s tail : string) : bool :=
  match s with
  | EmptyString => true
  | String c s' => negb (prefix old (s ++ tail)) && no_match old s' tail
  end.

(** ** The stop-on-first-failure invariant

    Where the call ended with [SystemExit], the last invocation of the log
    is the only one that failed; where it ended otherwise, none failed. *)
Definition stops_at_first_failure {A : Type} (r : Run A) : Prop :=
  match res r with
  | SystemExit =>
      exists pre ev,
        invocations (log r) = (pre ++ [ev])%list /\
        Forall (fun e => failed e = false) pre /\
        failed ev = true
  | _ => Forall (fun e => failed e = false) (invocations (log r))
  end.

(** ** The top level of the script (lines 81-135)

    The script first asks the operator for the parameters, one [input]
    after the other, then calls [run_notebook_in_loop] inside
    [try ... except Exception]. The lines the operator types are the list
    [stdin]; [input] at the end of the list raises [EOFError]. *)

(** What happens on the terminal and below it: a prompt of [input] with the
    line read ([None] at end of input), or an event of the two functions. *)
Inductive TopEvent : Type :=
| TInput (prompt : string) (answer : option string)
| TEvent (ev : Event).

(** The outcome of running a part of the top level: how it ended, the lines
    not read yet, the number of child processes spawned so far, and the
    events it produced. *)
Record TopRun (A : Type) : Type := mkTop {
  tres : Result A;
  unread : list string;
  tcalls : nat;
  tlog : list TopEvent
}.

Arguments mkTop {A} tres unread tcalls tlog.
Arguments tres {A} t.
Arguments unread {A} t.
Arguments tcalls {A} t.
Arguments tlog {A} t.

Definition T (A : Type) : Type := list string -> nat -> TopRun A.

Definition tret {A : Type} (a : A) : T A := fun stdin n => mkTop (Ret a) stdin n [].

Definition tbind {A B : Type} (m : T A) (f : A -> T B) : T B := fun stdin n =>
  let r := m stdin n in
  match tres r with
  | Ret a =>
      let r' := f a (unread r) (tcalls r) in
      mkTop (tres r') (unread r') (tcalls r') (tlog r ++ tlog r')
  | SystemExit => mkTop SystemExit (unread r) (tcalls r) (tlog r)
  | Raised e => mkTop (Raised e) (unread r) (tcalls r) (tlog r)
  end.

Declare Scope top_scope.
Delimit Scope top_scope with top.
Notation "x <- c1 ;; c2" := (tbind c1 (fun x => c2))
  (at level 61, c1 at next level, right associativity) : top_scope.
Notation "c1 ;; c2" := (tbind c1 (fun _ => c2))
  (at level 61, right associativity) : top_scope.

(** A computation of the two functions, run at the top level. *)
Definition lift {A : Type} (m : M A) : T A := fun stdin n =>
  let r := m n in mkTop (res r) stdin (calls r) (map TEvent (log r)).

(** [raise] of an [Exception] whose text is [e]. *)
Definition raise {A : Type} (e : string) : T A := fun stdin n => mkTop (Raised e) stdin n [].

(** [input(prompt)] *)
Definition input (prompt : string) : T string := fun stdin n =>
  match stdin with
  | [] => mkTop (Raised "EOF when reading a line") [] n [TInput prompt None]
  | line :: rest => mkTop (Ret line) rest n [TInput prompt (Some line)]
  end.

(** [try: body except: handler], which catches whatever [body] raises. *)
Definition try_bare {A : Type} (body : T A) (handler : T A) : T A := fun stdin n =>
  let r := body stdin n in
  match tres r with
  | Ret _ => r
  | _ =>
      let r' := handler (unread r) (tcalls r) in
      mkTop (tres r') (unread r') (tcalls r') (tlog r ++ tlog r')
  end.

(** [try: body except Exception as e: handler(e)] at the top level. *)
Definition try_exception {A : Type} (body : T A) (handler : string -> T A) : T A :=
  fun stdin n =>
  let r := body stdin n in
  match tres r with
  | Raised e =>
      let r' := handler e (unread r) (tcalls r) in
      mkTop (tres r') (unread r') (tcalls r') (tlog r ++ tlog r')
  | _ => r
  end.

(** [s.lower()] on the ASCII letters; other bytes are left as they are. *)
Definition lower_ascii (c : ascii) : ascii :=
  let n := nat_of_ascii c in
  if (65 <=? n)%nat && (n <=? 90)%nat then ascii_of_nat (n + 32) else c.

Fixpoint lower (s : string) : string :=
  match s with
  | EmptyString => EmptyString
  | String c s' => String (lower_ascii c) (lower s')
  end.

(** The parameters the prompts leave in the global variables. *)
Record Config : Type := mkConfig {
  notebook_name : string;
  loop_count : Z;
  execute_on_which_device : Z;
  token : option string;
  key_length : KeyLength;
  filename : string;
  given_range_begin : option Z;
  given_range_end : option Z
}.

(** The range bounds are [None] unless the key length is ['i'], and then
    [run_notebook_in_loop] does not read them: any integer stands for
    [None] in the call. *)
Definition bound (b : option Z) : Z :=
  match b with
  | Some z => z
  | None => 0
  end.

Section Toplevel.

Local Open Scope top_scope.

(** The environment of the top level: the one of the functions, the
    built-in [int] on a [str] (the integer, or the text of the [ValueError]
    it raises), and [os.getcwd()]. *)
Variable path_exists : string -> bool.
Variable proc : nat -> ProcResult.
Variable py_int : string -> Z + string.
Variable getcwd : string.

(** [int(s)] *)
Definition int (s : string) : T Z :=
  match py_int s with
  | inl z => tret z
  | inr e => raise e
  end.

(** Lines 86-95: the token is asked for on the real device only. *)
Definition ask_token (execute_on_which_device : Z) : T (option string) :=
  if execute_on_which_device =? 1 then
    a <- input "Do you want to insert the token? Enter 'y' for yes and 'n' for no: " ;;
    let use_token := if (a =? "")%string then "n" else a in
    if (lower use_token =? "y")%string then
      token <- input "Enter your token: " ;;
      tret (Some token)
    else
      lift (print "Credentials saved on the device will be used.") ;;
      tret None
  else tret None.

(** Lines 111-121: the two bounds of the range, each with its default. *)
Definition ask_range : T (Z * Z) :=
  given_range_begin <-
    try_bare
      (a <- input "Enter the first value of the range: " ;; int a)
      (lift (print ("Error. Default value: " ++ str 0)) ;; tret 0) ;;
  given_range_end <-
    try_bare
      (a <- input "Enter the last value of the range: " ;; int a)
      (lift (print ("Error. Default value: " ++ str (given_range_begin + 1))) ;;
       tret (given_range_begin + 1)) ;;
  tret (given_range_begin, given_range_end).

(** Lines 97-124: the key length and, for ['i'], the range. *)
Definition ask_key_length : T (KeyLength * option Z * option Z) :=
  key_length_input <- input "Enter the initial key length, 'e' for default example or 'i' to select a range: " ;;
  if negb (key_length_input =? "e")%string && negb (key_length_input =? "i")%string then
    key_length <- int key_length_input ;;
    tret (KInt key_length, None, None)
  else if (key_length_input =? "i")%string then
    r <- ask_range ;;
    tret (KStr "i", Some (fst r), Some (snd r))
  else tret (KStr "e", None, None).

(** Lines 126-129: the file of the results, with its default. *)
Definition ask_filename : T string :=
  a <- input "Insert the name of the file (including the path) where to save your results (pressing enter will lead to use the default location, the current folder, and a default name for your file: results_of_executions.csv):" ;;
  if (a =? "")%string then tret (getcwd ++ "\results_of_executions.csv") else tret a.

(** Lines 81-129: the prompts, in their order, and what they store. *)
Definition ask_parameters : T Config :=
  notebook_name <- input "Insert the name (including the path) of your file, adding the extension .ipynb: " ;;
  a <- input "Enter the number of times to run the notebook: " ;;
  loop_count <- (if (a =? "")%string then tret 1 else int a) ;;
  a <- input "Enter 0 to use the simulator (default). Enter 1 to use the first available real quantum computer: " ;;
  execute_on_which_device <- (if (a =? "")%string then tret 0 else int a) ;;
  token <- ask_token execute_on_which_device ;;
  key <- ask_key_length ;;
  filename <- ask_filename ;;
  tret (mkConfig notebook_name loop_count execute_on_which_device token
          (fst (fst key)) filename (snd (fst key)) (snd key)).

(** Lines 131-135: the sweep, inside [try ... except Exception]. *)
Definition sweep (c : Config) : T unit :=
  try_exception
    (lift (run_notebook_in_loop path_exists proc (notebook_name c) (loop_count c)
             (execute_on_which_device c) (token c) (key_length c) (filename c)
             (bound (given_range_begin c)) (bound (given_range_end c))))
    (fun e => lift (print e)).

(** The whole script. *)
Definition main : T unit :=
  c <- ask_parameters ;;
  sweep c.

End Toplevel.

(** A reader of plain decimal numerals, standing for [int] in examples. *)
Definition decimal (s : string) : Z + string :=
  if (s =? "")%string then inr "invalid literal for int() with base 10: ''"
  else
    match NilZero.int_of_string s with
    | Some d => inl (Z.of_int d)
    | None => inr ("invalid literal for int() with base 10: '" ++ s ++ "'")
    end.

(** The event spawns no process. *)
Definition quiet (ev : TopEvent) : Prop :=
  match ev with
  | TEvent (ESubprocess _ _ _) => False
  | _ => True
  end.

(** A part of the top level that only talks to the operator: it spawns no
    process, and what it returns satisfies [P]. *)
Definition asks {A : Type} (P : A -> Prop) (m : T A) : Prop :=
  forall stdin n,
    tcalls (m stdin n) = n /\
    Forall quiet (tlog (m stdin n)) /\
    match tres (m stdin n) with
    | Ret a => P a
    | _ => True
    end.

(** What the prompts guarantee about the parameters they store: a token
    only for device 1; a key length that is a number, ['e'] or ['i']; range
    bounds exactly for ['i']; a file name that is not empty. *)
Definition well_formed (c : Config) : Prop :=
  (execute_on_which_device c <> 1 -> token c = None) /\
  ((exists v, key_length c = KInt v /\
              given_range_begin c = None /\ given_range_end c = None) \/
   (key_length c = KStr "e" /\
    given_range_begin c = None /\ given_range_end c = None) \/
   (key_length c = KStr "i" /\
    exists b e, given_range_begin c = Some b /\ given_range_end c = Some e)) /\
  filename c <> "".

(** * Properties *)

(** ** Lists and ranges *)

Lemma range_empty (start stop : Z) : stop <= start -> range start stop = [].
Proof.
  intros H. unfold range.
  replace (Z.to_nat (stop - start)) with 0%nat by lia. reflexivity.
Qed.

Lemma range_length (start stop : Z) :
  List.length (range start stop) = Z.to_nat (stop - start).
Proof. unfold range. now rewrite length_map, length_seq. Qed.

Lemma invocations_app (l1 l2 : list Event) :
  invocations (l1 ++ l2)%list = (invocations l1 ++ invocations l2)%list.
Proof. apply filter_app. Qed.

(** ** The payload *)

Lemma inputs_key_field (d : Z) (token : option string) (k : KeyLength) (f : string) :
  inputs d token k f =
  if d =? 1 then
    match token with
    | Some t => wire [str d; t; key_field k; f]
    | None => wire [str d; key_field k; f]
    end
  else wire [str d; key_field k; f].
Proof.
  unfold inputs, key_field, wire, fold_right.
  destruct (d =? 1); [destruct token|]; 
    repeat (rewrite ?append_assoc; try reflexivity; f_equal).
Qed.

Lemma inputs_fields (d : Z) (token : option string) (k : KeyLength) (f : string) :
  inputs d token k f = wire (fields d token (key_field k) f).
Proof.
  rewrite inputs_key_field. unfold fields.
  destruct (d =? 1); [destruct token|]; reflexivity.
Qed.

Lemma key_field_int (v : Z) : key_field (KInt v) = if v =? 0 then "e" else str v.
Proof.
  unfold key_field, truthy, format. destruct (v =? 0); reflexivity.
Qed.

Lemma key_field_cases (k : KeyLength) :
  key_field k =
  match k with
  | KNone => "e"
  | KInt v => if v =? 0 then "e" else str v
  | KStr s => if (s =? "")%string then "e" else s
  end.
Proof.
  destruct k as [|v|s]; [reflexivity | apply key_field_int |].
  unfold key_field, truthy, format. destruct (s =? "")%string; reflexivity.
Qed.

(** [str] gives numerals only: it never gives a text that is not one. *)
Lemma str_not_text (a : Z) (s : string) :
  NilZero.int_of_string s = None -> str a <> s.
Proof.
  unfold str. intros Hs H.
  assert (E : NilZero.int_of_string (NilZero.string_of_int (Z.to_int a)) = None)
    by (rewrite H; exact Hs).
  destruct a as [|p|p]; cbn [Z.to_int] in E.
  - discriminate E.
  - rewrite NilZero.isi in E; [discriminate E| |discriminate].
    intros E'. injection E' as E'. exact (Unsigned.to_uint_nonnil p E').
  - rewrite NilZero.isi in E; [discriminate E|discriminate|].
    intros E'. injection E' as E'. exact (Unsigned.to_uint_nonnil p E').
Qed.

(** ** One iteration of the loop *)

Section Loop.

Variable proc : nat -> ProcResult.

Lemma executionLoop_for_each (s : string) (lc d : Z) (t : option string)
    (k : KeyLength) (f : string) :
  executionLoop proc s lc d t k f = for_each (range 0 lc) (iteration proc s d t k f).
Proof. reflexivity. Qed.

Lemma iteration_success (s : string) (d : Z) (t : option string) (k : KeyLength)
    (f : string) (i : Z) (n : nat) :
  proc n = Completed 0 ->
  iteration proc s d t k f i n =
  mkRun (Ret tt) (S n) [EPrint (banner (i + 1)); invocation s d t k f (Completed 0)].
Proof.
  intros H.
  cbv beta iota zeta delta [iteration bind print try_except subprocess_run res calls log].
  rewrite H. reflexivity.
Qed.

Lemma iteration_nonzero (s : string) (d : Z) (t : option string) (k : KeyLength)
    (f : string) (i : Z) (n : nat) (c : Z) :
  proc n = Completed c -> c <> 0 ->
  iteration proc s d t k f i n =
  mkRun SystemExit (S n)
    [EPrint (banner (i + 1)); invocation s d t k f (Completed c);
     EPrint ("Execution number " ++ str (i + 1)
             ++ " exited with an error (return code: " ++ str c ++ ").");
     EPrint "Next executions won't be executed."].
Proof.
  intros H Hc.
  cbv beta iota zeta delta [iteration bind print try_except subprocess_run res calls log].
  rewrite H. cbv beta iota.
  destruct (c =? 0) eqn:E; [apply Z.eqb_eq in E; contradiction|].
  reflexivity.
Qed.

Lemma iteration_not_started (s : string) (d : Z) (t : option string) (k : KeyLength)
    (f : string) (i : Z) (n : nat) (e : string) :
  proc n = Failed e ->
  iteration proc s d t k f i n =
  mkRun SystemExit (S n)
    [EPrint (banner (i + 1)); invocation s d t k f (Failed e); EPrint e].
Proof.
  intros H.
  cbv beta iota zeta delta [iteration bind print try_except subprocess_run res calls log].
  rewrite H. reflexivity.
Qed.

End Loop.

(** ** Stop on first failure *)

Section Invariant.

Variable path_exists : string -> bool.
Variable proc : nat -> ProcResult.

Lemma ret_stops {A : Type} (a : A) (n : nat) : stops_at_first_failure (ret a n).
Proof. constructor. Qed.

Lemma print_stops (line : string) (n : nat) : stops_at_first_failure (print line n).
Proof. constructor. Qed.

Lemma bind_stops {A B : Type} (m : M A) (f : A -> M B) (n : nat) :
  stops_at_first_failure (m n) ->
  (forall a n', stops_at_first_failure (f a n')) ->
  stops_at_first_failure (bind m f n).
Proof.
  intros Hm Hf. unfold bind.
  destruct (m n) as [rm cm lm]; simpl in *.
  destruct rm as [a| |e]; try exact Hm.
  specialize (Hf a cm).
  unfold stops_at_first_failure in *; simpl in *.
  rewrite invocations_app.
  destruct (res (f a cm)).
  - apply Forall_app; split; assumption.
  - destruct Hf as (pre & ev & Hl & Hpre & Hev).
    exists (invocations lm ++ pre)%list, ev.
    rewrite Hl, app_assoc. repeat split; try assumption.
    apply Forall_app; split; assumption.
  - apply Forall_app; split; assumption.
Qed.

Lemma for_each_stops {A : Type} (body : A -> M unit) :
  (forall a n, stops_at_first_failure (body a n)) ->
  forall l n, stops_at_first_failure (for_each l body n).
Proof.
  intros Hbody l. induction l as [|a l IH]; intros n; simpl.
  - apply ret_stops.
  - apply bind_stops; [apply Hbody | intros _ n'; apply IH].
Qed.

Lemma iteration_stops (s : string) (d : Z) (t : option string) (k : KeyLength)
    (f : string) (i : Z) (n : nat) :
  stops_at_first_failure (iteration proc s d t k f i n).
Proof.
  destruct (proc n) as [c|e] eqn:E.
  - destruct (Z.eq_dec c 0) as [->|Hc].
    + rewrite iteration_success by assumption.
      repeat constructor.
    + rewrite (iteration_nonzero proc s d t k f i n c) by assumption.
      exists [], (invocation s d t k f (Completed c)).
      repeat split; [constructor|].
      simpl. apply negb_true_iff, Z.eqb_neq, Hc.
  - rewrite (iteration_not_started proc s d t k f i n e) by assumption.
    exists [], (invocation s d t k f (Failed e)).
    repeat split. constructor.
Qed.

Lemma executionLoop_stops (s : string) (lc d : Z) (t : option string)
    (k : KeyLength) (f : string) (n : nat) :
  stops_at_first_failure (executionLoop proc s lc d t k f n).
Proof.
  rewrite executionLoop_for_each. apply for_each_stops.
  intros; apply iteration_stops.
Qed.

Lemma conversion_stops (nb : string) (n : nat) :
  stops_at_first_failure
    (subprocess_run proc ["jupyter"; "nbconvert"; "--to"; "script"; nb] None n).
Proof.
  unfold subprocess_run. destruct (proc n); constructor.
Qed.

Lemma run_notebook_in_loop_stops (nb : string) (lc d : Z) (t : option string)
    (k : KeyLength) (f : string) (b e : Z) (n : nat) :
  stops_at_first_failure (run_notebook_in_loop path_exists proc nb lc d t k f b e n).
Proof.
  unfold run_notebook_in_loop.
  destruct (negb (path_exists nb)); [apply print_stops|].
  apply bind_stops; [apply conversion_stops|].
  intros _ n'. cbv zeta.
  destruct (is_interval k); [|apply executionLoop_stops].
  apply bind_stops; [apply print_stops|].
  intros _ n''. apply for_each_stops.
  intros key m. apply bind_stops; [apply print_stops|].
  intros _ m'. apply executionLoop_stops.
Qed.

(** A failed invocation found in the log of a call that keeps the
    invariant is the last one, everything before it succeeded, and the call
    ended with [SystemExit]. *)
Lemma failed_invocation_is_last {A : Type} (r : Run A) (k : nat) (ev : Event) :
  stops_at_first_failure r ->
  nth_error (invocations (log r)) k = Some ev ->
  failed ev = true ->
  res r = SystemExit /\
  List.length (invocations (log r)) = S k /\
  Forall (fun e => failed e = false) (firstn k (invocations (log r))).
Proof.
  unfold stops_at_first_failure.
  intros Hinv Hk Hev.
  assert (Hno : forall l, Forall (fun e => failed e = false) l ->
                          nth_error l k = Some ev -> False).
  { intros l Hl Hn. apply nth_error_In in Hn.
    rewrite Forall_forall in Hl. apply Hl in Hn. congruence. }
  destruct (res r).
  - exfalso; eauto.
  - destruct Hinv as (pre & ev0 & Hl & Hpre & Hev0).
    rewrite Hl in *.
    destruct (Nat.lt_ge_cases k (List.length pre)) as [Hlt|Hge].
    + rewrite nth_error_app1 in Hk by assumption. exfalso; eauto.
    + rewrite nth_error_app2 in Hk by assumption.
      destruct (k - List.length pre)%nat as [|j] eqn:Ej.
      * assert (k = List.length pre) by lia. subst k.
        split; [reflexivity|]. split.
        -- rewrite length_app. simpl. lia.
        -- rewrite firstn_app, Nat.sub_diag, firstn_all. simpl.
           rewrite app_nil_r. assumption.
      * simpl in Hk. destruct j; discriminate.
  - exfalso; eauto.
Qed.

End Invariant.

(** ** Runs in which every invocation succeeds *)

Section AllSucceed.

Variable proc : nat -> ProcResult.

Lemma for_each_iteration_success (s : string) (d : Z) (t : option string)
    (k : KeyLength) (f : string) (l : list Z) :
  forall n,
    (forall j, (j < List.length l)%nat -> proc (n + j) = Completed 0) ->
    for_each l (iteration proc s d t k f) n =
    mkRun (Ret tt) (n + List.length l)
      (flat_map (fun i => [EPrint (banner (i + 1)); invocation s d t k f (Completed 0)]) l).
Proof.
  induction l as [|i l IH]; intros n H; simpl.
  - unfold ret. now rewrite Nat.add_0_r.
  - unfold bind.
    rewrite iteration_success by (rewrite <- (Nat.add_0_r n); apply H; simpl; lia).
    cbv beta iota zeta delta [res calls log].
    rewrite IH.
    + simpl. f_equal. lia.
    + intros j Hj. replace (S n + j)%nat with (n + S j)%nat by lia.
      apply H. simpl. lia.
Qed.

Lemma executionLoop_success (s : string) (lc d : Z) (t : option string)
    (k : KeyLength) (f : string) (n : nat) :
  (forall j, (j < Z.to_nat lc)%nat -> proc (n + j) = Completed 0) ->
  executionLoop proc s lc d t k f n =
  mkRun (Ret tt) (n + Z.to_nat lc) (executions s d t k f (Z.to_nat lc)).
Proof.
  intros H. rewrite executionLoop_for_each, for_each_iteration_success.
  - rewrite range_length, Z.sub_0_r. f_equal.
    unfold executions, range. rewrite Z.sub_0_r, <- seq_shift.
    rewrite !flat_map_concat_map, !map_map. f_equal.
    apply map_ext. intros i. do 3 f_equal. rewrite Nat2Z.inj_succ. lia.
  - now rewrite range_length, Z.sub_0_r.
Qed.

Lemma invocations_executions (s : string) (d : Z) (t : option string)
    (k : KeyLength) (f : string) (r : nat) :
  invocations (executions s d t k f r) = repeat (invocation s d t k f (Completed 0)) r.
Proof.
  unfold executions. generalize 1%nat.
  induction r as [|r IH]; intros a; simpl; [reflexivity|].
  f_equal. apply IH.
Qed.

Lemma bind_returned {A B : Type} (m : M A) (f : A -> M B) (n c : nat) (a : A)
    (l : list Event) :
  m n = mkRun (Ret a) c l ->
  bind m f n = mkRun (res (f a c)) (calls (f a c)) (l ++ log (f a c))%list.
Proof. intros H. unfold bind. rewrite H. reflexivity. Qed.

Lemma sweep_step_success (s : string) (lc d : Z) (t : option string)
    (f : string) (key : Z) (n : nat) :
  (forall j, (j < Z.to_nat lc)%nat -> proc (n + j) = Completed 0) ->
  sweep_step proc s lc d t f key n =
  mkRun (Ret tt) (n + Z.to_nat lc)
    (EPrint ("Current Key Length to test: " ++ str key)
     :: executions s d t (KInt key) f (Z.to_nat lc)).
Proof.
  intros H. unfold sweep_step.
  rewrite (bind_returned _ _ n n tt [EPrint ("Current Key Length to test: " ++ str key)])
    by reflexivity.
  rewrite executionLoop_success by assumption. reflexivity.
Qed.

Lemma for_each_sweep_step_success (s : string) (lc d : Z) (t : option string)
    (f : string) (keys : list Z) :
  forall n,
    (forall j, (j < List.length keys * Z.to_nat lc)%nat -> proc (n + j) = Completed 0) ->
    for_each keys (sweep_step proc s lc d t f) n =
    mkRun (Ret tt) (n + List.length keys * Z.to_nat lc)
      (flat_map (fun key =>
         EPrint ("Current Key Length to test: " ++ str key)
         :: executions s d t (KInt key) f (Z.to_nat lc)) keys).
Proof.
  induction keys as [|key keys IH]; intros n H.
  - cbn [for_each flat_map List.length]. unfold ret. now rewrite Nat.add_0_r.
  - cbn [for_each flat_map List.length] in *.
    rewrite (bind_returned _ _ n _ tt _ (sweep_step_success s lc d t f key n
               ltac:(intros j Hj; apply H; lia))).
    rewrite IH by (intros j Hj; rewrite <- Nat.add_assoc; apply H; lia).
    cbn [res calls log]. f_equal. lia.
Qed.

Lemma invocations_sweep (s : string) (d : Z) (t : option string) (f : string)
    (r : nat) (keys : list Z) :
  invocations
    (flat_map (fun key =>
       EPrint ("Current Key Length to test: " ++ str key)
       :: executions s d t (KInt key) f r) keys) =
  flat_map (fun key => repeat (invocation s d t (KInt key) f (Completed 0)) r) keys.
Proof.
  induction keys as [|key keys IH]; cbn [flat_map]; [reflexivity|].
  rewrite invocations_app, IH. f_equal.
  apply invocations_executions.
Qed.

Lemma length_flat_map_repeat {A B : Type} (g : A -> B) (r : nat) (l : list A) :
  List.length (flat_map (fun a => repeat (g a) r) l) = (List.length l * r)%nat.
Proof.
  induction l as [|a l IH]; simpl; [reflexivity|].
  now rewrite length_app, repeat_length, IH.
Qed.

End AllSucceed.

(** ** The shape of every invocation *)

Section Shape.

Variable proc : nat -> ProcResult.

Lemma bind_log_Forall {A B : Type} (P : Event -> Prop) (m : M A) (f : A -> M B)
    (n : nat) :
  Forall P (log (m n)) ->
  (forall a n', Forall P (log (f a n'))) ->
  Forall P (log (bind m f n)).
Proof.
  intros Hm Hf. unfold bind.
  destruct (m n) as [rm cm lm]; cbn [res calls log] in *.
  destruct rm; cbn [log]; try assumption.
  apply Forall_app; split; [assumption | apply Hf].
Qed.

Lemma for_each_log_Forall {A : Type} (P : Event -> Prop) (body : A -> M unit) :
  (forall a n, Forall P (log (body a n))) ->
  forall l n, Forall P (log (for_each l body n)).
Proof.
  intros Hbody l. induction l as [|a l IH]; intros n; cbn [for_each].
  - constructor.
  - apply bind_log_Forall; [apply Hbody | intros _ n'; apply IH].
Qed.

(** Every invocation [executionLoop] performs runs [script_name] on the
    text built from the arguments of the call. *)
Lemma executionLoop_invocations (s : string) (lc d : Z) (t : option string)
    (k : KeyLength) (f : string) (n : nat) :
  Forall (fun ev => exists r, ev = invocation s d t k f r)
    (invocations (log (executionLoop proc s lc d t k f n))).
Proof.
  assert (H : Forall (fun ev => is_invocation ev = true ->
                                exists r, ev = invocation s d t k f r)
                (log (executionLoop proc s lc d t k f n))).
  { rewrite executionLoop_for_each. apply for_each_log_Forall.
    intros i m. destruct (proc m) as [c|e] eqn:E.
    - destruct (Z.eq_dec c 0) as [->|Hc].
      + rewrite iteration_success by assumption.
        repeat constructor; [discriminate | eauto].
      + rewrite (iteration_nonzero proc s d t k f i m c) by assumption.
        repeat constructor; try discriminate; eauto.
    - rewrite (iteration_not_started proc s d t k f i m e) by assumption.
      repeat constructor; try discriminate; eauto. }
  rewrite Forall_forall in *. intros ev Hev.
  apply filter_In in Hev. destruct Hev as [Hin Hinv]. auto.
Qed.

End Shape.

(** * The claims *)

(** ** Stop on first failure *)

(** C1. Stop-on-first-failure: in every sweep (fixed key length or range),
    if the invocation at position [i] of the log (global ordinal [i + 1])
    returned a nonzero exit status, then exactly [i + 1] invocations were
    performed in total, every earlier one succeeded, and the sweep ended by
    [exit()]: nothing is attempted after the failure, neither a remaining
    repetition nor a later key length. *)
Theorem stop_on_first_failure (path_exists : string -> bool) (proc : nat -> ProcResult)
    (nb : string) (lc d : Z) (t : option string) (k : KeyLength) (f : string)
    (b e : Z) (n i : nat) (args : list string) (input : option string) (c : Z) :
  nth_error
    (invocations (log (run_notebook_in_loop path_exists proc nb lc d t k f b e n))) i
  = Some (ESubprocess args input (Completed c)) ->
  c <> 0 ->
  res (run_notebook_in_loop path_exists proc nb lc d t k f b e n) = SystemExit /\
  List.length
    (invocations (log (run_notebook_in_loop path_exists proc nb lc d t k f b e n)))
  = S i /\
  Forall (fun ev => failed ev = false)
    (firstn i
       (invocations (log (run_notebook_in_loop path_exists proc nb lc d t k f b e n)))).
Proof.
  intros Hi Hc.
  apply (failed_invocation_is_last _ i (ESubprocess args input (Completed c))).
  - apply run_notebook_in_loop_stops.
  - exact Hi.
  - cbn [failed]. apply negb_true_iff, Z.eqb_neq, Hc.
Qed.

(** Scenario C of the specification, in range mode: five repetitions per
    key, the second invocation returns 1. *)
Lemma stop_on_first_failure_witness :
  nth_error
    (invocations
       (log (run_notebook_in_loop (fun _ => true)
               (fun j => if (j =? 2)%nat then Completed 1 else Completed 0)
               "qkd.ipynb" 5 0 None (KStr "i") "/r.csv" 197 199 0%nat))) 1
  = Some (ESubprocess ["python"; "qkd.py"] (Some (wire ["0"; "197"; "/r.csv"]))
            (Completed 1)) /\
  1 <> 0 /\
  List.length
    (invocations
       (log (run_notebook_in_loop (fun _ => true)
               (fun j => if (j =? 2)%nat then Completed 1 else Completed 0)
               "qkd.ipynb" 5 0 None (KStr "i") "/r.csv" 197 199 0%nat))) = 2%nat.
Proof.
  split; [reflexivity|]. split; [lia|].
  apply (stop_on_first_failure (fun _ => true)
           (fun j => if (j =? 2)%nat then Completed 1 else Completed 0)
           "qkd.ipynb" 5 0 None (KStr "i") "/r.csv" 197 199 0%nat 1%nat
           ["python"; "qkd.py"] (Some (wire ["0"; "197"; "/r.csv"])) 1);
    [reflexivity | lia].
Defined.

(** C7, as stated, fails: a sweep whose second invocation cannot be started
    and a sweep whose second invocation reports exit status 1 end in the
    same terminal state, [SystemExit]. *)
Lemma dispatch_failure_same_terminal :
  ~ distinct_terminal
      (run_notebook_in_loop (fun _ => true)
         (fun j => if (j =? 2)%nat then Failed "No such file or directory: python"
                   else Completed 0)
         "qkd.ipynb" 5 0 None (KInt 42) "/r.csv" 0 1 0%nat)
      (run_notebook_in_loop (fun _ => true)
         (fun j => if (j =? 2)%nat then Completed 1 else Completed 0)
         "qkd.ipynb" 5 0 None (KInt 42) "/r.csv" 0 1 0%nat).
Proof. intros H. apply H. reflexivity. Qed.

(** C7, amended. If the experiment runner cannot be started for the
    invocation at position [i] of the log, the sweep aborts immediately by
    [exit()]: exactly [i + 1] invocations were attempted, every earlier one
    succeeded, no remaining repetition and no later key length is tried.
    The terminal state is the one of a sweep stopped by a nonzero exit
    status, not a distinct one. *)
Theorem dispatch_failure_aborts (path_exists : string -> bool) (proc : nat -> ProcResult)
    (nb : string) (lc d : Z) (t : option string) (k : KeyLength) (f : string)
    (b e : Z) (n i : nat) (args : list string) (input : option string) (msg : string) :
  nth_error
    (invocations (log (run_notebook_in_loop path_exists proc nb lc d t k f b e n))) i
  = Some (ESubprocess args input (Failed msg)) ->
  res (run_notebook_in_loop path_exists proc nb lc d t k f b e n) = SystemExit /\
  List.length
    (invocations (log (run_notebook_in_loop path_exists proc nb lc d t k f b e n)))
  = S i /\
  Forall (fun ev => failed ev = false)
    (firstn i
       (invocations (log (run_notebook_in_loop path_exists proc nb lc d t k f b e n)))) /\
  (forall path_exists' proc' nb' lc' d' t' k' f' b' e' n' i' args' input' c,
     nth_error
       (invocations
          (log (run_notebook_in_loop path_exists' proc' nb' lc' d' t' k' f' b' e' n'))) i'
     = Some (ESubprocess args' input' (Completed c)) ->
     c <> 0 ->
     res (run_notebook_in_loop path_exists' proc' nb' lc' d' t' k' f' b' e' n') =
     res (run_notebook_in_loop path_exists proc nb lc d t k f b e n)).
Proof.
  intros Hi.
  destruct (failed_invocation_is_last
              (run_notebook_in_loop path_exists proc nb lc d t k f b e n)
              i (ESubprocess args input (Failed msg))
              (run_notebook_in_loop_stops _ _ _ _ _ _ _ _ _ _ _) Hi eq_refl)
    as (Hres & Hlen & Hpre).
  repeat split; try assumption.
  intros pe' proc' nb' lc' d' t' k' f' b' e' n' i' args' input' c Hi' Hc.
  rewrite Hres.
  apply (failed_invocation_is_last _ i' (ESubprocess args' input' (Completed c)));
    [apply run_notebook_in_loop_stops | exact Hi' |].
  cbn [failed]. apply negb_true_iff, Z.eqb_neq, Hc.
Qed.

Lemma dispatch_failure_aborts_witness :
  nth_error
    (invocations
       (log (run_notebook_in_loop (fun _ => true)
               (fun j => if (j =? 2)%nat then Failed "No such file or directory: python"
                         else Completed 0)
               "qkd.ipynb" 5 0 None (KStr "i") "/r.csv" 197 199 0%nat))) 1
  = Some (ESubprocess ["python"; "qkd.py"] (Some (wire ["0"; "197"; "/r.csv"]))
            (Failed "No such file or directory: python")) /\
  res (run_notebook_in_loop (fun _ => true)
         (fun j => if (j =? 2)%nat then Failed "No such file or directory: python"
                   else Completed 0)
         "qkd.ipynb" 5 0 None (KStr "i") "/r.csv" 197 199 0%nat) = SystemExit /\
  List.length
    (invocations
       (log (run_notebook_in_loop (fun _ => true)
               (fun j => if (j =? 2)%nat then Failed "No such file or directory: python"
                         else Completed 0)
               "qkd.ipynb" 5 0 None (KStr "i") "/r.csv" 197 199 0%nat))) = 2%nat.
Proof.
  split; [reflexivity|].
  destruct (dispatch_failure_aborts (fun _ => true)
              (fun j => if (j =? 2)%nat then Failed "No such file or directory: python"
                        else Completed 0)
              "qkd.ipynb" 5 0 None (KStr "i") "/r.csv" 197 199 0%nat 1%nat
              ["python"; "qkd.py"] (Some (wire ["0"; "197"; "/r.csv"]))
              "No such file or directory: python" eq_refl) as (Hres & Hlen & _).
  split; assumption.
Defined.

(** ** The payload *)

(** C2, as stated, fails: for the key length [Fixed 0] the key-length field
    is the sentinel, not the integer rendered as text. *)
Lemma payload_shape_fails_at_zero :
  inputs (encode Simulator) None (key_length_arg (Fixed 0)) "/r.csv"
  <> wire (spec_payload Simulator None (Fixed 0) "/r.csv").
Proof. intros H. vm_compute in H. discriminate H. Qed.

(** C2, amended. For every device selector (Simulator, RealDevice), token
    (present, absent) and key length that is the example or a nonzero
    integer, the text built for one invocation is the field sequence of the
    table of section 4.1, one line per field: the token is included only
    for RealDevice with a token present, and the key-length field is ["e"]
    for the example (whether passed as ['e'] or left to its default [None])
    and the integer rendered as text otherwise. *)
Theorem payload_shape (d : DeviceSelector) (t : option string) (k : KeyLengthValue)
    (f : string) :
  k <> Fixed 0 ->
  inputs (encode d) t (key_length_arg k) f = wire (spec_payload d t k f) /\
  (k = Example -> inputs (encode d) t KNone f = wire (spec_payload d t k f)).
Proof.
  intros Hk. rewrite !inputs_key_field.
  assert (Hf : key_field (key_length_arg k) = spec_key_text k).
  { destruct k as [|v]; [reflexivity|].
    unfold key_field, key_length_arg, truthy, format, spec_key_text.
    destruct (v =? 0) eqn:E; [|reflexivity].
    apply Z.eqb_eq in E. subst v. contradiction. }
  split.
  - rewrite Hf. destruct d, t; reflexivity.
  - intros ->. destruct d, t; reflexivity.
Qed.

Lemma payload_shape_witness :
  Fixed 42 <> Fixed 0 /\
  inputs 1 (Some "tok") (KInt 42) "/r.csv" = wire ["1"; "tok"; "42"; "/r.csv"].
Proof.
  split; [discriminate|].
  apply (payload_shape RealDevice (Some "tok") (Fixed 42) "/r.csv"). discriminate.
Defined.

(** C8. Zero key length: for [key_length = 0] the key-length field is the
    sentinel ["e"], not the text ["0"], because the field is chosen by the
    truth value of [key_length]; the text built is the one built for the
    example, and it is what every invocation of the loop receives. *)
Theorem zero_key_length_sends_example (d : Z) (t : option string) (f : string) :
  key_field (KInt 0) = "e" /\
  key_field (KInt 0) <> str 0 /\
  inputs d t (KInt 0) f =
    (if d =? 1 then
       match t with
       | Some tok => wire [str d; tok; "e"; f]
       | None => wire [str d; "e"; f]
       end
     else wire [str d; "e"; f]) /\
  inputs d t (KInt 0) f = inputs d t (KStr "e") f /\
  (forall proc s lc n,
     Forall (fun ev => exists r,
               ev = ESubprocess ["python"; s] (Some (inputs d t (KStr "e") f)) r)
       (invocations (log (executionLoop proc s lc d t (KInt 0) f n)))).
Proof.
  split; [reflexivity|]. split; [discriminate|].
  split; [apply inputs_key_field|]. split; [reflexivity|].
  intros proc s lc n. apply (executionLoop_invocations proc s lc d t (KInt 0) f n).
Qed.

(** C9. Device selector: for every integer [execute_on_which_device] other
    than 1, the text has the Simulator shape: the selector itself, rendered
    as text, is the first field, followed by the key-length field and the
    output path; a supplied token is not included. *)
Theorem other_selector_has_simulator_shape (d : Z) (t : option string)
    (k : KeyLength) (f : string) :
  d <> 1 ->
  inputs d t k f = wire [str d; key_field k; f] /\
  inputs d t k f = inputs d None k f.
Proof.
  intros Hd. apply Z.eqb_neq in Hd.
  rewrite !inputs_key_field, Hd. split; reflexivity.
Qed.

Lemma other_selector_has_simulator_shape_witness :
  2 <> 1 /\
  inputs 2 (Some "tok") (KInt 42) "/r.csv" = wire ["2"; "42"; "/r.csv"].
Proof.
  split; [lia|].
  apply (other_selector_has_simulator_shape 2 (Some "tok") (KInt 42) "/r.csv"). lia.
Defined.

(** ** Degenerate sweeps *)

(** C10. Non-positive repetitions: for every [loop_count <= 0] the
    execution loop performs no invocation, prints nothing and returns
    normally. *)
Theorem nonpositive_repetitions_do_nothing (proc : nat -> ProcResult) (s : string)
    (lc d : Z) (t : option string) (k : KeyLength) (f : string) (n : nat) :
  lc <= 0 ->
  executionLoop proc s lc d t k f n = mkRun (Ret tt) n [] /\
  invocations (log (executionLoop proc s lc d t k f n)) = [].
Proof.
  intros H. rewrite executionLoop_for_each, range_empty by lia.
  split; reflexivity.
Qed.

Lemma nonpositive_repetitions_do_nothing_witness :
  -3 <= 0 /\
  executionLoop (fun _ => Completed 1) "qkd.py" (-3) 0 None (KInt 42) "/r.csv" 7%nat
  = mkRun (Ret tt) 7%nat [].
Proof.
  split; [lia|].
  apply (nonpositive_repetitions_do_nothing (fun _ => Completed 1) "qkd.py" (-3) 0 None
           (KInt 42) "/r.csv" 7%nat). lia.
Defined.

(** C3, as stated, fails: for the range from 10 to 5 the sweep returns
    normally; no error reaches the caller. *)
Lemma inverted_range_raises_nothing :
  ~ fails (run_notebook_in_loop (fun _ => true) (fun _ => Completed 0)
             "qkd.ipynb" 3 0 None (KStr "i") "/r.csv" 10 5 0%nat).
Proof. intros H. exact H. Qed.

(** C3, amended. For every range with begin > end no invocation of the
    experiment runner is attempted and the sweep does not stop by [exit()];
    where the notebook exists and its conversion ran, the sweep prints the
    range and returns normally: the empty range is skipped, no error is
    raised. *)
Theorem inverted_range_is_skipped (path_exists : string -> bool)
    (proc : nat -> ProcResult) (nb : string) (lc d : Z) (t : option string)
    (f : string) (b e : Z) (n : nat) :
  e < b ->
  invocations
    (log (run_notebook_in_loop path_exists proc nb lc d t (KStr "i") f b e n)) = [] /\
  res (run_notebook_in_loop path_exists proc nb lc d t (KStr "i") f b e n) <> SystemExit /\
  (forall c, path_exists nb = true -> proc n = Completed c ->
     run_notebook_in_loop path_exists proc nb lc d t (KStr "i") f b e n =
     mkRun (Ret tt) (S n)
       [conversion nb (Completed c); EPrint ("Range: " ++ str b ++ " - " ++ str e)]).
Proof.
  intros H. unfold run_notebook_in_loop.
  rewrite range_empty by lia.
  destruct (path_exists nb); cbn [negb].
  - cbv beta iota zeta delta [bind subprocess_run is_interval String.eqb Ascii.eqb
                                Bool.eqb print for_each ret res calls log].
    destruct (proc n) as [c|msg]; cbv beta iota zeta delta [res calls log].
    + repeat split; [discriminate|]. intros c' _ Hc. injection Hc as <-. reflexivity.
    + repeat split; [discriminate|]. intros c' _ Hc. discriminate Hc.
  - repeat split; [discriminate|]. intros c' Hp. discriminate Hp.
Qed.

Lemma inverted_range_is_skipped_witness :
  5 < 10 /\
  run_notebook_in_loop (fun _ => true) (fun _ => Completed 0)
    "qkd.ipynb" 3 0 None (KStr "i") "/r.csv" 10 5 0%nat
  = mkRun (Ret tt) 1%nat
      [conversion "qkd.ipynb" (Completed 0); EPrint "Range: 10 - 5"].
Proof.
  split; [lia|].
  apply (inverted_range_is_skipped (fun _ => true) (fun _ => Completed 0)
           "qkd.ipynb" 3 0 None "/r.csv" 10 5 0%nat ltac:(lia)); reflexivity.
Defined.

(** C6, as stated, fails: when the notebook does not exist the sweep
    returns normally; no error reaches the caller. *)
Lemma missing_notebook_raises_nothing :
  ~ fails (run_notebook_in_loop (fun _ => false) (fun _ => Completed 0)
             "qkd.ipynb" 3 0 None (KInt 42) "/r.csv" 0 1 0%nat).
Proof. intros H. exact H. Qed.

(** C6, amended. For every configuration whose notebook path does not
    exist, nothing is run: no conversion and no invocation of the
    experiment is attempted; the sweep prints that the file does not exist
    and returns normally to its caller, without raising an error. *)
Theorem missing_notebook_is_reported (path_exists : string -> bool)
    (proc : nat -> ProcResult) (nb : string) (lc d : Z) (t : option string)
    (k : KeyLength) (f : string) (b e : Z) (n : nat) :
  path_exists nb = false ->
  run_notebook_in_loop path_exists proc nb lc d t k f b e n =
  mkRun (Ret tt) n [EPrint ("The file " ++ nb ++ " does not exist.")].
Proof.
  intros H. unfold run_notebook_in_loop. rewrite H. reflexivity.
Qed.

Lemma missing_notebook_is_reported_witness :
  (fun _ : string => false) "qkd.ipynb" = false /\
  run_notebook_in_loop (fun _ => false) (fun _ => Completed 0)
    "qkd.ipynb" 3 0 None (KInt 42) "/r.csv" 0 1 0%nat
  = mkRun (Ret tt) 0%nat [EPrint "The file qkd.ipynb does not exist."].
Proof.
  split; [reflexivity|].
  apply (missing_notebook_is_reported (fun _ => false) (fun _ => Completed 0)
           "qkd.ipynb" 3 0 None (KInt 42) "/r.csv" 0 1 0%nat). reflexivity.
Defined.

(** ** Sweeps in which every invocation succeeds *)

(** The text of an invocation for an integer key length. *)
Lemma invocation_int (s : string) (d : Z) (t : option string) (v : Z) (f : string)
    (r : ProcResult) :
  invocation s d t (KInt v) f r =
  ESubprocess ["python"; s]
    (Some (wire (fields d t (if v =? 0 then "e" else str v) f))) r.
Proof.
  unfold invocation. now rewrite inputs_fields, key_field_int.
Qed.

Lemma invocation_nonzero (s : string) (d : Z) (t : option string) (v : Z) (f : string)
    (r : ProcResult) :
  v <> 0 ->
  invocation s d t (KInt v) f r =
  ESubprocess ["python"; s] (Some (wire (fields d t (str v) f))) r.
Proof.
  intros Hv. rewrite invocation_int. apply Z.eqb_neq in Hv. now rewrite Hv.
Qed.

Lemma flat_map_ext_in {A B : Type} (g h : A -> list B) (l : list A) :
  (forall a, In a l -> g a = h a) -> flat_map g l = flat_map h l.
Proof.
  induction l as [|a l IH]; intros H; cbn [flat_map]; [reflexivity|].
  rewrite (H a) by now left.
  rewrite IH; [reflexivity|]. intros a' Ha'. apply H. now right.
Qed.

(** C5, as stated, fails: with the fixed key length 0 the invocation does
    not use key length 0; the text it is fed carries the example sentinel
    in the key-length field. *)
Lemma fixed_key_zero_sends_example :
  invocations
    (log (executionLoop (fun _ => Completed 0) "qkd.py" 1 1 None (KInt 0) "/r.csv" 0%nat))
  = [ESubprocess ["python"; "qkd.py"] (Some (wire ["1"; "e"; "/r.csv"])) (Completed 0)] /\
  invocations
    (log (executionLoop (fun _ => Completed 0) "qkd.py" 1 1 None (KInt 0) "/r.csv" 0%nat))
  <> [ESubprocess ["python"; "qkd.py"] (Some (wire ["1"; "0"; "/r.csv"])) (Completed 0)].
Proof. split; [reflexivity|]. intros H. vm_compute in H. discriminate H. Qed.

(** C5, amended. Fixed key length: for every nonzero key length [v] and
    [r >= 1] repetitions, when every invocation returns exit status 0, the
    loop performs exactly [r] invocations, announced as executions 1 to [r]
    in this order, each fed the text whose key-length field is [v] in
    decimal, and returns normally. *)
Theorem fixed_all_succeed (proc : nat -> ProcResult) (s : string) (r d : Z)
    (t : option string) (v : Z) (f : string) (n : nat) :
  1 <= r ->
  v <> 0 ->
  (forall j, (j < Z.to_nat r)%nat -> proc (n + j)%nat = Completed 0) ->
  res (executionLoop proc s r d t (KInt v) f n) = Ret tt /\
  log (executionLoop proc s r d t (KInt v) f n) =
    flat_map (fun i => [EPrint (banner (Z.of_nat i));
                        ESubprocess ["python"; s]
                          (Some (wire (fields d t (str v) f))) (Completed 0)])
      (seq 1 (Z.to_nat r)) /\
  invocations (log (executionLoop proc s r d t (KInt v) f n)) =
    repeat (ESubprocess ["python"; s] (Some (wire (fields d t (str v) f))) (Completed 0))
      (Z.to_nat r) /\
  Z.of_nat (List.length (invocations (log (executionLoop proc s r d t (KInt v) f n)))) = r.
Proof.
  intros Hr Hv H. rewrite executionLoop_success by assumption.
  cbn [res log]. rewrite invocations_executions, repeat_length.
  unfold executions. rewrite (invocation_nonzero s d t v f (Completed 0) Hv).
  repeat split. lia.
Qed.

(** Scenario A of the specification. *)
Lemma fixed_all_succeed_witness :
  1 <= 3 /\
  42 <> 0 /\
  (forall j, (j < Z.to_nat 3)%nat -> (fun _ : nat => Completed 0) (0 + j)%nat = Completed 0) /\
  res (executionLoop (fun _ => Completed 0) "qkd.py" 3 0 None (KInt 42) "/r.csv" 0%nat)
  = Ret tt /\
  invocations
    (log (executionLoop (fun _ => Completed 0) "qkd.py" 3 0 None (KInt 42) "/r.csv" 0%nat))
  = repeat (ESubprocess ["python"; "qkd.py"] (Some (wire ["0"; "42"; "/r.csv"]))
              (Completed 0)) 3.
Proof.
  split; [lia|]. split; [lia|]. split; [reflexivity|].
  destruct (fixed_all_succeed (fun _ => Completed 0) "qkd.py" 3 0 None 42 "/r.csv" 0%nat
              ltac:(lia) ltac:(lia) ltac:(reflexivity)) as (Hres & _ & Hinv & _).
  split; [exact Hres | exact Hinv].
Defined.

(** A range sweep in which every invocation succeeds, whatever the range:
    the conversion, the line naming the range, and for each key in
    ascending order its announcement and its executions. *)
Lemma range_sweep_success (path_exists : string -> bool) (proc : nat -> ProcResult)
    (nb : string) (r d : Z) (t : option string) (f : string) (b e : Z)
    (n : nat) (c : Z) :
  path_exists nb = true ->
  proc n = Completed c ->
  (forall j, (j < Z.to_nat (e + 1 - b) * Z.to_nat r)%nat ->
             proc (S n + j)%nat = Completed 0) ->
  run_notebook_in_loop path_exists proc nb r d t (KStr "i") f b e n =
  mkRun (Ret tt) (S n + Z.to_nat (e + 1 - b) * Z.to_nat r)
    (conversion nb (Completed c)
     :: EPrint ("Range: " ++ str b ++ " - " ++ str e)
     :: flat_map (fun key =>
          EPrint ("Current Key Length to test: " ++ str key)
          :: executions (replace ".ipynb" ".py" nb) d t (KInt key) f (Z.to_nat r))
        (range b (e + 1))).
Proof.
  intros Hp Hc H.
  unfold run_notebook_in_loop. rewrite Hp. cbn [negb].
  rewrite (bind_returned _ _ n (S n) c [conversion nb (Completed c)])
    by (unfold subprocess_run; rewrite Hc; reflexivity).
  cbv zeta. change (is_interval (KStr "i")) with true. cbv iota.
  rewrite (bind_returned _ _ (S n) (S n) tt
             [EPrint ("Range: " ++ str b ++ " - " ++ str e)]) by reflexivity.
  change (fun currentKey : Z =>
            print ("Current Key Length to test: " ++ str currentKey) ;;
            executionLoop proc (replace ".ipynb" ".py" nb) r d t (KInt currentKey) f)
    with (sweep_step proc (replace ".ipynb" ".py" nb) r d t f).
  rewrite for_each_sweep_step_success.
  - rewrite range_length. reflexivity.
  - intros j Hj. apply H. rewrite range_length in Hj. exact Hj.
Qed.

(** C4, as stated, fails: in the range from -1 to 1 the key-length sequence
    across the invocations is not -1, 0, 1; the invocation for key 0 is fed
    the example sentinel. *)
Lemma range_with_zero_sends_example :
  invocations
    (log (run_notebook_in_loop (fun _ => true) (fun _ => Completed 0)
            "qkd.ipynb" 1 1 None (KStr "i") "/r.csv" (-1) 1 0%nat))
  = [ESubprocess ["python"; "qkd.py"] (Some (wire ["1"; "-1"; "/r.csv"])) (Completed 0);
     ESubprocess ["python"; "qkd.py"] (Some (wire ["1"; "e"; "/r.csv"])) (Completed 0);
     ESubprocess ["python"; "qkd.py"] (Some (wire ["1"; "1"; "/r.csv"])) (Completed 0)] /\
  invocations
    (log (run_notebook_in_loop (fun _ => true) (fun _ => Completed 0)
            "qkd.ipynb" 1 1 None (KStr "i") "/r.csv" (-1) 1 0%nat))
  <> [ESubprocess ["python"; "qkd.py"] (Some (wire ["1"; "-1"; "/r.csv"])) (Completed 0);
      ESubprocess ["python"; "qkd.py"] (Some (wire ["1"; "0"; "/r.csv"])) (Completed 0);
      ESubprocess ["python"; "qkd.py"] (Some (wire ["1"; "1"; "/r.csv"])) (Completed 0)].
Proof. split; [reflexivity|]. intros H. vm_compute in H. discriminate H. Qed.

(** C4, amended. Range: for every range from [b] to [e] with [b <= e] that
    does not contain 0 and [r >= 1] repetitions, when the notebook exists,
    its conversion ran and every invocation returns exit status 0, exactly
    [r * (e - b + 1)] invocations are performed, grouped by key length in
    ascending order: [r] fed the text whose key-length field is [b] in
    decimal, then [r] with [b + 1], and so on up to [e]; the sweep returns
    normally. *)
Theorem range_all_succeed (path_exists : string -> bool) (proc : nat -> ProcResult)
    (nb : string) (r d : Z) (t : option string) (f : string) (b e : Z)
    (n : nat) (c : Z) :
  path_exists nb = true ->
  proc n = Completed c ->
  b <= e ->
  0 < b \/ e < 0 ->
  1 <= r ->
  (forall j, (j < Z.to_nat (r * (e - b + 1)))%nat -> proc (S n + j)%nat = Completed 0) ->
  res (run_notebook_in_loop path_exists proc nb r d t (KStr "i") f b e n) = Ret tt /\
  log (run_notebook_in_loop path_exists proc nb r d t (KStr "i") f b e n) =
    conversion nb (Completed c)
    :: EPrint ("Range: " ++ str b ++ " - " ++ str e)
    :: flat_map (fun key =>
         EPrint ("Current Key Length to test: " ++ str key)
         :: flat_map (fun i =>
              [EPrint (banner (Z.of_nat i));
               ESubprocess ["python"; replace ".ipynb" ".py" nb]
                 (Some (wire (fields d t (str key) f))) (Completed 0)])
            (seq 1 (Z.to_nat r)))
       (map (fun i => b + Z.of_nat i) (seq 0 (Z.to_nat (e - b + 1)))) /\
  invocations (log (run_notebook_in_loop path_exists proc nb r d t (KStr "i") f b e n)) =
    flat_map (fun key =>
        repeat (ESubprocess ["python"; replace ".ipynb" ".py" nb]
                  (Some (wire (fields d t (str key) f))) (Completed 0))
          (Z.to_nat r))
      (map (fun i => b + Z.of_nat i) (seq 0 (Z.to_nat (e - b + 1)))) /\
  Z.of_nat
    (List.length
       (invocations
          (log (run_notebook_in_loop path_exists proc nb r d t (KStr "i") f b e n))))
  = r * (e - b + 1).
Proof.
  intros Hp Hc Hbe Hz Hr H.
  assert (Hrange : range b (e + 1) =
                   map (fun i => b + Z.of_nat i) (seq 0 (Z.to_nat (e - b + 1)))).
  { unfold range. do 3 f_equal. lia. }
  assert (Hkey : forall key, In key (range b (e + 1)) -> key <> 0).
  { intros key Hin. unfold range in Hin. apply in_map_iff in Hin.
    destruct Hin as (i & <- & Hi). apply in_seq in Hi. lia. }
  rewrite (range_sweep_success path_exists proc nb r d t f b e n c Hp Hc)
    by (intros j Hj; apply H;
        replace (Z.to_nat (r * (e - b + 1)))
          with (Z.to_nat (e + 1 - b) * Z.to_nat r)%nat by nia;
        exact Hj).
  cbn [res log].
  change (invocations (conversion nb (Completed c) :: EPrint ?x :: ?l))
    with (invocations l).
  rewrite invocations_sweep, length_flat_map_repeat, range_length.
  rewrite <- Hrange.
  split; [reflexivity|]. split; [|split].
  - do 2 f_equal. apply flat_map_ext_in. intros key Hin.
    unfold executions.
    now rewrite (invocation_nonzero _ d t key f (Completed 0) (Hkey key Hin)).
  - apply flat_map_ext_in. intros key Hin.
    now rewrite (invocation_nonzero _ d t key f (Completed 0) (Hkey key Hin)).
  - nia.
Qed.

(** Scenario B of the specification. *)
Lemma range_all_succeed_witness :
  (fun _ : string => true) "qkd.ipynb" = true /\
  197 <= 199 /\
  (0 < 197 \/ 199 < 0) /\
  1 <= 2 /\
  invocations
    (log (run_notebook_in_loop (fun _ => true) (fun _ => Completed 0)
            "qkd.ipynb" 2 0 None (KStr "i") "/r.csv" 197 199 0%nat))
  = [ESubprocess ["python"; "qkd.py"] (Some (wire ["0"; "197"; "/r.csv"])) (Completed 0);
     ESubprocess ["python"; "qkd.py"] (Some (wire ["0"; "197"; "/r.csv"])) (Completed 0);
     ESubprocess ["python"; "qkd.py"] (Some (wire ["0"; "198"; "/r.csv"])) (Completed 0);
     ESubprocess ["python"; "qkd.py"] (Some (wire ["0"; "198"; "/r.csv"])) (Completed 0);
     ESubprocess ["python"; "qkd.py"] (Some (wire ["0"; "199"; "/r.csv"])) (Completed 0);
     ESubprocess ["python"; "qkd.py"] (Some (wire ["0"; "199"; "/r.csv"])) (Completed 0)] /\
  Z.of_nat
    (List.length
       (invocations
          (log (run_notebook_in_loop (fun _ => true) (fun _ => Completed 0)
                  "qkd.ipynb" 2 0 None (KStr "i") "/r.csv" 197 199 0%nat))))
  = 2 * (199 - 197 + 1).
Proof.
  split; [reflexivity|]. split; [lia|]. split; [left; lia|]. split; [lia|].
  destruct (range_all_succeed (fun _ => true) (fun _ => Completed 0)
              "qkd.ipynb" 2 0 None "/r.csv" 197 199 0%nat 0
              eq_refl eq_refl ltac:(lia) ltac:(left; lia) ltac:(lia) ltac:(reflexivity))
    as (_ & _ & Hinv & Hlen).
  split; [exact Hinv | exact Hlen].
Defined.


(** * Further properties of the two functions *)

(** ** Where a sweep stops, and what it prints there *)

Section Failure.

Variable path_exists : string -> bool.
Variable proc : nat -> ProcResult.

Lemma for_each_app {A : Type} (body : A -> M unit) (l1 l2 : list A) (n : nat) :
  for_each (l1 ++ l2)%list body n = bind (for_each l1 body) (fun _ => for_each l2 body) n.
Proof.
  revert n. induction l1 as [|a l1 IH]; intros n; cbn [for_each app].
  - unfold bind, ret. cbn [res calls log app].
    destruct (for_each l2 body n). reflexivity.
  - unfold bind in *. destruct (body a n) as [ra ca la]. cbn [res calls log].
    destruct ra as [[]| |e]; cbn [res calls log]; try reflexivity.
    rewrite IH.
    destruct (for_each l1 body ca) as [r1 c1 lg1]. cbn [res calls log].
    destruct r1 as [[]| |e1]; cbn [res calls log]; try reflexivity.
    now rewrite app_assoc.
Qed.

(** A loop whose first iterations all return and whose next one ends
    abruptly ends there: what follows is not run. *)
Lemma for_each_stops_at {A : Type} (body : A -> M unit) (l1 l2 : list A) (a : A)
    (n n1 n2 : nat) (log1 log2 : list Event) (r : Result unit) :
  for_each l1 body n = mkRun (Ret tt) n1 log1 ->
  body a n1 = mkRun r n2 log2 ->
  r <> Ret tt ->
  for_each (l1 ++ a :: l2)%list body n = mkRun r n2 (log1 ++ log2)%list.
Proof.
  intros H1 Ha Hr. rewrite for_each_app.
  rewrite (bind_returned _ _ n n1 tt log1 H1).
  cbn [for_each]. unfold bind at 1 2 3. rewrite Ha. cbn [res calls log].
  destruct r as [[]| |e]; [contradiction| reflexivity | reflexivity].
Qed.

Lemma seq_offset (a len : nat) : seq a len = map (fun i => (a + i)%nat) (seq 0 len).
Proof.
  revert a. induction len as [|len IH]; intros a; cbn [seq map]; [reflexivity|].
  f_equal; [lia|].
  rewrite <- (seq_shift len 0), map_map, (IH (S a)).
  apply map_ext. intros i. lia.
Qed.

Lemma range_split (start stop : Z) (j : nat) :
  (j < Z.to_nat (stop - start))%nat ->
  range start stop =
  (range start (start + Z.of_nat j)
   ++ (start + Z.of_nat j) :: range (start + Z.of_nat j + 1) stop)%list.
Proof.
  intros H. unfold range.
  replace (Z.to_nat (stop - start))
    with (j + S (Z.to_nat (stop - (start + Z.of_nat j + 1))))%nat by lia.
  rewrite seq_app, map_app. cbn [seq map Nat.add].
  replace (Z.to_nat (start + Z.of_nat j - start)) with j by lia.
  f_equal. f_equal.
  rewrite (seq_offset (S j)), map_map.
  apply map_ext. intros i. lia.
Qed.

(** What [executionLoop] does when its first [j] invocations succeed and
    the next one ends the loop with the events [tail]. *)
Lemma executionLoop_stops_at (s : string) (lc d : Z) (t : option string)
    (k : KeyLength) (f : string) (n j : nat) (tail : list Event) :
  (j < Z.to_nat lc)%nat ->
  (forall i, (i < j)%nat -> proc (n + i)%nat = Completed 0) ->
  iteration proc s d t k f (Z.of_nat j) (n + j)%nat = mkRun SystemExit (S (n + j)) tail ->
  executionLoop proc s lc d t k f n =
  mkRun SystemExit (S (n + j)) (executions s d t k f j ++ tail)%list.
Proof.
  intros Hj Hok Hit.
  rewrite executionLoop_for_each, (range_split 0 lc j) by lia.
  rewrite !Z.add_0_l.
  apply for_each_stops_at with (n1 := (n + j)%nat).
  - rewrite <- executionLoop_for_each, executionLoop_success
      by (rewrite Nat2Z.id; assumption).
    now rewrite Nat2Z.id.
  - exact Hit.
  - discriminate.
Qed.

End Failure.

(** A nonzero exit status ends the loop with two lines: the first names the
    number of the execution within this call of the loop and the return
    code. If the first [j] invocations of [executionLoop] return 0 and the
    next one returns [c <> 0], the loop has spawned exactly [j + 1]
    processes, printed the two lines and called [exit()]. *)
Theorem executionLoop_nonzero_exit (proc : nat -> ProcResult) (s : string) (lc d : Z)
    (t : option string) (k : KeyLength) (f : string) (n j : nat) (c : Z) :
  (j < Z.to_nat lc)%nat ->
  (forall i, (i < j)%nat -> proc (n + i)%nat = Completed 0) ->
  proc (n + j)%nat = Completed c ->
  c <> 0 ->
  executionLoop proc s lc d t k f n =
  mkRun SystemExit (S (n + j))
    (executions s d t k f j ++
     [EPrint (banner (Z.of_nat j + 1));
      invocation s d t k f (Completed c);
      EPrint ("Execution number " ++ str (Z.of_nat j + 1)
              ++ " exited with an error (return code: " ++ str c ++ ").");
      EPrint "Next executions won't be executed."])%list.
Proof.
  intros Hj Hok Hc Hne.
  apply executionLoop_stops_at; try assumption.
  apply iteration_nonzero; assumption.
Qed.

Lemma executionLoop_nonzero_exit_witness :
  executionLoop (fun i => if (i =? 2)%nat then Completed 3 else Completed 0)
    "qkd.py" 5 0 None (KInt 42) "/r.csv" 0%nat =
  mkRun SystemExit 3%nat
    [EPrint "------ EXECUTION NUMBER 1 ------";
     invocation "qkd.py" 0 None (KInt 42) "/r.csv" (Completed 0);
     EPrint "------ EXECUTION NUMBER 2 ------";
     invocation "qkd.py" 0 None (KInt 42) "/r.csv" (Completed 0);
     EPrint "------ EXECUTION NUMBER 3 ------";
     invocation "qkd.py" 0 None (KInt 42) "/r.csv" (Completed 3);
     EPrint "Execution number 3 exited with an error (return code: 3).";
     EPrint "Next executions won't be executed."].
Proof.
  apply (executionLoop_nonzero_exit
           (fun i => if (i =? 2)%nat then Completed 3 else Completed 0)
           "qkd.py" 5 0 None (KInt 42) "/r.csv" 0%nat 2%nat 3).
  - vm_compute. lia.
  - intros [|[|i]] Hi; [reflexivity | reflexivity | lia].
  - reflexivity.
  - lia.
Defined.

(** A runner that cannot be started ends the loop with one line, the text
    of the exception: if the first [j] invocations of [executionLoop]
    return 0 and the next call of [subprocess.run] raises [e], the loop
    prints [e] and calls [exit()]; the exception itself does not reach the
    caller. *)
Theorem executionLoop_not_started (proc : nat -> ProcResult) (s : string) (lc d : Z)
    (t : option string) (k : KeyLength) (f : string) (n j : nat) (e : string) :
  (j < Z.to_nat lc)%nat ->
  (forall i, (i < j)%nat -> proc (n + i)%nat = Completed 0) ->
  proc (n + j)%nat = Failed e ->
  executionLoop proc s lc d t k f n =
  mkRun SystemExit (S (n + j))
    (executions s d t k f j ++
     [EPrint (banner (Z.of_nat j + 1));
      invocation s d t k f (Failed e);
      EPrint e])%list.
Proof.
  intros Hj Hok He.
  apply executionLoop_stops_at; try assumption.
  apply iteration_not_started; assumption.
Qed.

Lemma executionLoop_not_started_witness :
  executionLoop (fun i => if (i =? 1)%nat then Failed "python: not found" else Completed 0)
    "qkd.py" 5 0 None (KInt 42) "/r.csv" 0%nat =
  mkRun SystemExit 2%nat
    [EPrint "------ EXECUTION NUMBER 1 ------";
     invocation "qkd.py" 0 None (KInt 42) "/r.csv" (Completed 0);
     EPrint "------ EXECUTION NUMBER 2 ------";
     invocation "qkd.py" 0 None (KInt 42) "/r.csv" (Failed "python: not found");
     EPrint "python: not found"].
Proof.
  apply (executionLoop_not_started
           (fun i => if (i =? 1)%nat then Failed "python: not found" else Completed 0)
           "qkd.py" 5 0 None (KInt 42) "/r.csv" 0%nat 1%nat "python: not found").
  - vm_compute. lia.
  - intros [|i] Hi; [reflexivity | lia].
  - reflexivity.
Defined.

(** ** The sweep behind the conversion *)

Section Sweep.

Variable path_exists : string -> bool.
Variable proc : nat -> ProcResult.

(** Once the notebook exists and its conversion returned, a sweep that is
    not a range is the conversion followed by one call of [executionLoop]. *)
Lemma run_notebook_in_loop_fixed (nb : string) (lc d : Z) (t : option string)
    (k : KeyLength) (f : string) (b e : Z) (n : nat) (c : Z) :
  path_exists nb = true ->
  proc n = Completed c ->
  is_interval k = false ->
  run_notebook_in_loop path_exists proc nb lc d t k f b e n =
  mkRun (res (executionLoop proc (replace ".ipynb" ".py" nb) lc d t k f (S n)))
    (calls (executionLoop proc (replace ".ipynb" ".py" nb) lc d t k f (S n)))
    (conversion nb (Completed c)
     :: log (executionLoop proc (replace ".ipynb" ".py" nb) lc d t k f (S n))).
Proof.
  intros Hp Hc Hk. unfold run_notebook_in_loop. rewrite Hp. cbn [negb].
  rewrite (bind_returned _ _ n (S n) c [conversion nb (Completed c)])
    by (unfold subprocess_run; rewrite Hc; reflexivity).
  cbv zeta. rewrite Hk. reflexivity.
Qed.

(** Once the notebook exists and its conversion returned, a range sweep is
    the conversion, the line naming the range, and the loop over the keys. *)
Lemma run_notebook_in_loop_range (nb : string) (lc d : Z) (t : option string)
    (f : string) (b e : Z) (n : nat) (c : Z) :
  path_exists nb = true ->
  proc n = Completed c ->
  run_notebook_in_loop path_exists proc nb lc d t (KStr "i") f b e n =
  mkRun
    (res (for_each (range b (e + 1))
            (sweep_step proc (replace ".ipynb" ".py" nb) lc d t f) (S n)))
    (calls (for_each (range b (e + 1))
              (sweep_step proc (replace ".ipynb" ".py" nb) lc d t f) (S n)))
    (conversion nb (Completed c)
     :: EPrint ("Range: " ++ str b ++ " - " ++ str e)
     :: log (for_each (range b (e + 1))
               (sweep_step proc (replace ".ipynb" ".py" nb) lc d t f) (S n))).
Proof.
  intros Hp Hc. unfold run_notebook_in_loop. rewrite Hp. cbn [negb].
  rewrite (bind_returned _ _ n (S n) c [conversion nb (Completed c)])
    by (unfold subprocess_run; rewrite Hc; reflexivity).
  cbv zeta. change (is_interval (KStr "i")) with true. cbv iota.
  rewrite (bind_returned _ _ (S n) (S n) tt
             [EPrint ("Range: " ++ str b ++ " - " ++ str e)]) by reflexivity.
  reflexivity.
Qed.

(** What the loop over the keys does when the first [q] keys complete and
    the loop of the next key stops after [j] successful invocations with
    the events [tail]. *)
Lemma sweep_stops_at (s : string) (lc d : Z) (t : option string) (f : string)
    (b stop : Z) (n q j : nat) (tail : list Event) :
  (q < Z.to_nat (stop - b))%nat ->
  (j < Z.to_nat lc)%nat ->
  (forall i, (i < q * Z.to_nat lc + j)%nat -> proc (n + i)%nat = Completed 0) ->
  iteration proc s d t (KInt (b + Z.of_nat q)) f (Z.of_nat j)
    (n + q * Z.to_nat lc + j)%nat
  = mkRun SystemExit (S (n + q * Z.to_nat lc + j)) tail ->
  for_each (range b stop) (sweep_step proc s lc d t f) n =
  mkRun SystemExit (S (n + q * Z.to_nat lc + j))
    (flat_map (fun key =>
         EPrint ("Current Key Length to test: " ++ str key)
         :: executions s d t (KInt key) f (Z.to_nat lc))
       (map (fun i => b + Z.of_nat i) (seq 0 q))
     ++ EPrint ("Current Key Length to test: " ++ str (b + Z.of_nat q))
        :: executions s d t (KInt (b + Z.of_nat q)) f j ++ tail)%list.
Proof.
  intros Hq Hj Hok Hit.
  assert (Hkeys : range b (b + Z.of_nat q) = map (fun i => b + Z.of_nat i) (seq 0 q)).
  { unfold range. do 2 f_equal. lia. }
  rewrite (range_split b stop q) by assumption.
  apply for_each_stops_at with (n1 := (n + q * Z.to_nat lc)%nat).
  - rewrite for_each_sweep_step_success.
    + rewrite range_length, Hkeys. do 2 f_equal. lia.
    + intros i Hi. rewrite range_length in Hi. apply Hok.
      replace (Z.to_nat (b + Z.of_nat q - b)) with q in Hi by lia. lia.
  - unfold sweep_step.
    rewrite (bind_returned _ _ _ _ tt
               [EPrint ("Current Key Length to test: " ++ str (b + Z.of_nat q))]
               eq_refl).
    rewrite (executionLoop_stops_at proc _ lc d t _ f _ j tail Hj).
    + reflexivity.
    + intros i Hi. rewrite <- Nat.add_assoc. apply Hok. lia.
    + exact Hit.
  - discriminate.
Qed.

End Sweep.

(** In a range sweep the line printed at a nonzero exit status numbers the
    execution within the current key, not within the sweep: if the notebook
    exists, its conversion returned, the first [q] keys completed, and the
    key [b + q] stops at its execution [j + 1] with return code [c <> 0]
    (global ordinal [q * r + j + 1]), then the sweep prints
    ["Execution number (j + 1) exited ..."] and calls [exit()]. *)
Theorem range_nonzero_exit (path_exists : string -> bool) (proc : nat -> ProcResult)
    (nb : string) (r d : Z) (t : option string) (f : string) (b e : Z)
    (n q j : nat) (c0 c : Z) :
  path_exists nb = true ->
  proc n = Completed c0 ->
  (q < Z.to_nat (e + 1 - b))%nat ->
  (j < Z.to_nat r)%nat ->
  (forall i, (i < q * Z.to_nat r + j)%nat -> proc (S n + i)%nat = Completed 0) ->
  proc (S n + q * Z.to_nat r + j)%nat = Completed c ->
  c <> 0 ->
  run_notebook_in_loop path_exists proc nb r d t (KStr "i") f b e n =
  mkRun SystemExit (S (S n + q * Z.to_nat r + j))
    (conversion nb (Completed c0)
     :: EPrint ("Range: " ++ str b ++ " - " ++ str e)
     :: flat_map (fun key =>
            EPrint ("Current Key Length to test: " ++ str key)
            :: executions (replace ".ipynb" ".py" nb) d t (KInt key) f (Z.to_nat r))
          (map (fun i => b + Z.of_nat i) (seq 0 q))
        ++ EPrint ("Current Key Length to test: " ++ str (b + Z.of_nat q))
           :: executions (replace ".ipynb" ".py" nb) d t (KInt (b + Z.of_nat q)) f j
              ++ [EPrint (banner (Z.of_nat j + 1));
                  invocation (replace ".ipynb" ".py" nb) d t (KInt (b + Z.of_nat q)) f
                    (Completed c);
                  EPrint ("Execution number " ++ str (Z.of_nat j + 1)
                          ++ " exited with an error (return code: " ++ str c ++ ").");
                  EPrint "Next executions won't be executed."])%list.
Proof.
  intros Hp Hc0 Hq Hj Hok Hc Hne.
  rewrite (run_notebook_in_loop_range path_exists proc nb r d t f b e n c0 Hp Hc0).
  rewrite (sweep_stops_at proc _ r d t f b (e + 1) (S n) q j _ Hq Hj Hok
             (iteration_nonzero proc _ d t _ f _ _ c Hc Hne)).
  reflexivity.
Qed.

Lemma range_nonzero_exit_witness :
  run_notebook_in_loop (fun _ => true)
    (fun i => if (i =? 4)%nat then Completed 1 else Completed 0)
    "qkd.ipynb" 2 0 None (KStr "i") "/r.csv" 197 199 0%nat =
  mkRun SystemExit 5%nat
    [conversion "qkd.ipynb" (Completed 0);
     EPrint "Range: 197 - 199";
     EPrint "Current Key Length to test: 197";
     EPrint "------ EXECUTION NUMBER 1 ------";
     invocation "qkd.py" 0 None (KInt 197) "/r.csv" (Completed 0);
     EPrint "------ EXECUTION NUMBER 2 ------";
     invocation "qkd.py" 0 None (KInt 197) "/r.csv" (Completed 0);
     EPrint "Current Key Length to test: 198";
     EPrint "------ EXECUTION NUMBER 1 ------";
     invocation "qkd.py" 0 None (KInt 198) "/r.csv" (Completed 0);
     EPrint "------ EXECUTION NUMBER 2 ------";
     invocation "qkd.py" 0 None (KInt 198) "/r.csv" (Completed 1);
     EPrint "Execution number 2 exited with an error (return code: 1).";
     EPrint "Next executions won't be executed."].
Proof.
  apply (range_nonzero_exit (fun _ => true)
           (fun i => if (i =? 4)%nat then Completed 1 else Completed 0)
           "qkd.ipynb" 2 0 None "/r.csv" 197 199 0%nat 1%nat 1%nat 0 1).
  - reflexivity.
  - reflexivity.
  - vm_compute. lia.
  - vm_compute. lia.
  - intros [|[|[|i]]] Hi; try reflexivity. vm_compute in Hi. lia.
  - reflexivity.
  - lia.
Defined.

Lemma bind_raised {A B : Type} (m : M A) (f : A -> M B) (n c : nat) (e : string)
    (l : list Event) :
  m n = mkRun (Raised e) c l ->
  bind m f n = mkRun (Raised e) c l.
Proof. intros H. unfold bind. rewrite H. reflexivity. Qed.

Lemma subprocess_run_failed (proc : nat -> ProcResult) (args : list string)
    (input : option string) (n : nat) (e : string) :
  proc n = Failed e ->
  subprocess_run proc args input n =
  mkRun (Raised e) (S n) [ESubprocess args input (Failed e)].
Proof. intros H. unfold subprocess_run. rewrite H. reflexivity. Qed.

(** A conversion that cannot be started is not caught inside
    [run_notebook_in_loop]: when the notebook exists and the call of
    [jupyter nbconvert] raises [e], the exception reaches the caller, no
    invocation of the experiment was attempted and [exit()] was not
    called. *)
Theorem conversion_failure_propagates (path_exists : string -> bool)
    (proc : nat -> ProcResult) (nb : string) (lc d : Z) (t : option string)
    (k : KeyLength) (f : string) (b e : Z) (n : nat) (msg : string) :
  path_exists nb = true ->
  proc n = Failed msg ->
  run_notebook_in_loop path_exists proc nb lc d t k f b e n =
  mkRun (Raised msg) (S n) [conversion nb (Failed msg)].
Proof.
  intros Hp Hc. unfold run_notebook_in_loop. rewrite Hp. cbn [negb].
  apply bind_raised. now apply subprocess_run_failed.
Qed.

Lemma conversion_failure_propagates_witness :
  run_notebook_in_loop (fun _ => true) (fun _ => Failed "jupyter: not found")
    "qkd.ipynb" 3 0 None (KInt 42) "/r.csv" 0 1 0%nat =
  mkRun (Raised "jupyter: not found") 1%nat
    [conversion "qkd.ipynb" (Failed "jupyter: not found")].
Proof.
  apply (conversion_failure_propagates (fun _ => true)
           (fun _ => Failed "jupyter: not found")
           "qkd.ipynb" 3 0 None (KInt 42) "/r.csv" 0 1 0%nat "jupyter: not found");
    reflexivity.
Defined.

(** The return code of the conversion is not looked at: when the notebook
    exists and [jupyter nbconvert] returned any code [c], zero or not, a
    sweep that is not a range (a number, ['e'] or [None] as key length)
    runs the script [lc] times and, when each run returns 0, returns
    normally with the conversion followed by executions 1 to [lc]. *)
Theorem fixed_sweep_all_succeed (path_exists : string -> bool)
    (proc : nat -> ProcResult) (nb : string) (lc d : Z) (t : option string)
    (k : KeyLength) (f : string) (b e : Z) (n : nat) (c : Z) :
  path_exists nb = true ->
  proc n = Completed c ->
  is_interval k = false ->
  (forall i, (i < Z.to_nat lc)%nat -> proc (S n + i)%nat = Completed 0) ->
  run_notebook_in_loop path_exists proc nb lc d t k f b e n =
  mkRun (Ret tt) (S n + Z.to_nat lc)
    (conversion nb (Completed c)
     :: executions (replace ".ipynb" ".py" nb) d t k f (Z.to_nat lc)).
Proof.
  intros Hp Hc Hk Hok.
  rewrite (run_notebook_in_loop_fixed path_exists proc nb lc d t k f b e n c Hp Hc Hk).
  rewrite executionLoop_success by assumption. reflexivity.
Qed.

Lemma fixed_sweep_all_succeed_witness :
  run_notebook_in_loop (fun _ => true)
    (fun i => if (i =? 0)%nat then Completed 1 else Completed 0)
    "qkd.ipynb" 2 0 None (KStr "e") "/r.csv" 0 1 0%nat =
  mkRun (Ret tt) 3%nat
    [conversion "qkd.ipynb" (Completed 1);
     EPrint "------ EXECUTION NUMBER 1 ------";
     invocation "qkd.py" 0 None (KStr "e") "/r.csv" (Completed 0);
     EPrint "------ EXECUTION NUMBER 2 ------";
     invocation "qkd.py" 0 None (KStr "e") "/r.csv" (Completed 0)].
Proof.
  apply (fixed_sweep_all_succeed (fun _ => true)
           (fun i => if (i =? 0)%nat then Completed 1 else Completed 0)
           "qkd.ipynb" 2 0 None (KStr "e") "/r.csv" 0 1 0%nat 1).
  - reflexivity.
  - reflexivity.
  - reflexivity.
  - intros i Hi. reflexivity.
Defined.

(** ** What a sweep runs *)

Section Keys.

Variable path_exists : string -> bool.
Variable proc : nat -> ProcResult.

Lemma for_each_log_Forall_in {A : Type} (P : Event -> Prop) (body : A -> M unit)
    (l : list A) :
  (forall a n, In a l -> Forall P (log (body a n))) ->
  forall n, Forall P (log (for_each l body n)).
Proof.
  induction l as [|a l IH]; intros Hbody n; cbn [for_each].
  - constructor.
  - apply bind_log_Forall.
    + apply Hbody. now left.
    + intros _ n'. apply IH. intros a' m Ha'. apply Hbody. now right.
Qed.

Lemma in_range (start stop key : Z) :
  In key (range start stop) -> start <= key < stop.
Proof.
  unfold range. rewrite in_map_iff. intros (i & <- & Hi).
  apply in_seq in Hi. lia.
Qed.

Lemma invocations_Forall (P : Event -> Prop) (l : list Event) :
  Forall (fun ev => is_invocation ev = true -> P ev) l ->
  Forall P (invocations l).
Proof.
  rewrite !Forall_forall. intros H ev Hev.
  apply filter_In in Hev. destruct Hev as [Hin Hinv]. auto.
Qed.

Lemma executionLoop_log_shape (s : string) (lc d : Z) (t : option string)
    (k : KeyLength) (f : string) (n : nat) :
  Forall (fun ev => is_invocation ev = true -> exists r, ev = invocation s d t k f r)
    (log (executionLoop proc s lc d t k f n)).
Proof.
  rewrite executionLoop_for_each. apply for_each_log_Forall.
  intros i m. destruct (proc m) as [c|e] eqn:E.
  - destruct (Z.eq_dec c 0) as [->|Hc].
    + rewrite iteration_success by assumption.
      repeat constructor; [discriminate | eauto].
    + rewrite (iteration_nonzero proc s d t k f i m c) by assumption.
      repeat constructor; try discriminate; eauto.
  - rewrite (iteration_not_started proc s d t k f i m e) by assumption.
    repeat constructor; try discriminate; eauto.
Qed.

End Keys.

(** The shape of every invocation in the log of a range sweep. *)
Lemma range_sweep_log_shape (path_exists : string -> bool)
    (proc : nat -> ProcResult) (nb : string) (lc d : Z) (t : option string)
    (f : string) (b e : Z) (n : nat) :
  Forall (fun ev => is_invocation ev = true ->
            exists key r,
              b <= key <= e /\
              ev = invocation (replace ".ipynb" ".py" nb) d t (KInt key) f r)
    (log (run_notebook_in_loop path_exists proc nb lc d t (KStr "i") f b e n)).
Proof.
  unfold run_notebook_in_loop.
  destruct (negb (path_exists nb)).
  - repeat constructor. discriminate.
  - apply bind_log_Forall.
    + unfold subprocess_run. destruct (proc n); repeat constructor; discriminate.
    + intros _ n1. cbv zeta. change (is_interval (KStr "i")) with true. cbv iota.
      apply bind_log_Forall; [repeat constructor; discriminate|].
      intros _ n2. apply for_each_log_Forall_in.
      intros key m Hkey. apply in_range in Hkey.
      apply bind_log_Forall; [repeat constructor; discriminate|].
      intros _ m'.
      eapply Forall_impl; [|apply executionLoop_log_shape].
      cbv beta. intros ev H Hev. destruct (H Hev) as [r ->].
      exists key, r. split; [lia | reflexivity].
Qed.

(** A range sweep runs the experiment for keys of the range only, and
    never sends the marker ['i']: every invocation in its log runs the
    converted script on the text built from the device, token and file name
    of the call, whose key-length field is the decimal text of an integer
    key between begin and end, or ['e'] when that key is 0. *)
Theorem range_sweep_keys_in_range (path_exists : string -> bool)
    (proc : nat -> ProcResult) (nb : string) (lc d : Z) (t : option string)
    (f : string) (b e : Z) (n : nat) :
  Forall (fun ev => exists key r,
            b <= key <= e /\
            (if key =? 0 then "e" else str key) <> "i" /\
            ev = ESubprocess ["python"; replace ".ipynb" ".py" nb]
                   (Some (wire (fields d t (if key =? 0 then "e" else str key) f))) r)
    (invocations
       (log (run_notebook_in_loop path_exists proc nb lc d t (KStr "i") f b e n))).
Proof.
  apply invocations_Forall.
  eapply Forall_impl; [|apply range_sweep_log_shape].
  cbv beta. intros ev H Hev. destruct (H Hev) as (key & r & Hk & ->).
  exists key, r. split; [exact Hk|]. split.
  - destruct (key =? 0); [discriminate | now apply str_not_text].
  - apply invocation_int.
Qed.

(** The shape of every invocation in the log of a sweep that is not a
    range. *)
Lemma fixed_sweep_log_shape (path_exists : string -> bool)
    (proc : nat -> ProcResult) (nb : string) (lc d : Z) (t : option string)
    (k : KeyLength) (f : string) (b e : Z) (n : nat) :
  is_interval k = false ->
  Forall (fun ev => is_invocation ev = true ->
            exists r, ev = invocation (replace ".ipynb" ".py" nb) d t k f r)
    (log (run_notebook_in_loop path_exists proc nb lc d t k f b e n)).
Proof.
  intros Hk. unfold run_notebook_in_loop.
  destruct (negb (path_exists nb)).
  - repeat constructor. discriminate.
  - apply bind_log_Forall.
    + unfold subprocess_run. destruct (proc n); repeat constructor; discriminate.
    + intros _ n1. cbv zeta. rewrite Hk. apply executionLoop_log_shape.
Qed.

(** Every invocation of a sweep that is not a range is fed the same text,
    built from the device, token and file name of the call; its key-length
    field is the decimal text of the key length when that is a nonzero
    integer, ['e'] when it is 0, [None] or the empty string, and the string
    itself otherwise (['e'] for the example). *)
Theorem fixed_sweep_invocations (path_exists : string -> bool)
    (proc : nat -> ProcResult) (nb : string) (lc d : Z) (t : option string)
    (k : KeyLength) (f : string) (b e : Z) (n : nat) :
  is_interval k = false ->
  Forall (fun ev => exists r,
            ev = ESubprocess ["python"; replace ".ipynb" ".py" nb]
                   (Some (wire (fields d t
                                  match k with
                                  | KNone => "e"
                                  | KInt v => if v =? 0 then "e" else str v
                                  | KStr s => if (s =? "")%string then "e" else s
                                  end f))) r)
    (invocations (log (run_notebook_in_loop path_exists proc nb lc d t k f b e n))).
Proof.
  intros Hk. apply invocations_Forall.
  eapply Forall_impl; [|apply (fixed_sweep_log_shape _ _ _ _ _ _ _ _ _ _ _ Hk)].
  cbv beta. intros ev H Hev. destruct (H Hev) as (r & ->).
  exists r. unfold invocation. now rewrite inputs_fields, key_field_cases.
Qed.

Lemma fixed_sweep_invocations_witness :
  Forall (fun ev => exists r,
            ev = ESubprocess ["python"; "qkd.py"] (Some (wire ["0"; "42"; "/r.csv"])) r)
    (invocations
       (log (run_notebook_in_loop (fun _ => true) (fun _ => Completed 0)
               "qkd.ipynb" 3 0 None (KInt 42) "/r.csv" 0 1 0%nat))).
Proof.
  apply (fixed_sweep_invocations (fun _ => true) (fun _ => Completed 0)
           "qkd.ipynb" 3 0 None (KInt 42) "/r.csv" 0 1 0%nat eq_refl).
Defined.

(** ** Texts *)

Lemma str_inj (a b : Z) : str a = str b -> a = b.
Proof.
  unfold str. intros H.
  assert (Hnil : forall z, Z.to_int z <> Decimal.Pos Decimal.Nil /\
                           Z.to_int z <> Decimal.Neg Decimal.Nil).
  { intros [|p|p]; cbn [Z.to_int]; split; try discriminate;
      intros E; injection E as E; exact (Unsigned.to_uint_nonnil p E). }
  apply DecimalZ.to_int_inj.
  assert (E : Some (Z.to_int a) = Some (Z.to_int b)).
  { rewrite <- (NilZero.isi (Z.to_int a)) by apply Hnil.
    rewrite <- (NilZero.isi (Z.to_int b)) by apply Hnil.
    now rewrite H. }
  now injection E.
Qed.

Lemma str_not_e (a : Z) : str a <> "e".
Proof.
  unfold str. intros H.
  assert (E : NilZero.int_of_string (NilZero.string_of_int (Z.to_int a)) = None)
    by (rewrite H; reflexivity).
  destruct a as [|p|p]; cbn [Z.to_int] in E.
  - discriminate E.
  - rewrite NilZero.isi in E; [discriminate E| |discriminate].
    intros E'. injection E' as E'. exact (Unsigned.to_uint_nonnil p E').
  - rewrite NilZero.isi in E; [discriminate E|discriminate|].
    intros E'. injection E' as E'. exact (Unsigned.to_uint_nonnil p E').
Qed.

Lemma append_cancel_l (s x y : string) : s ++ x = s ++ y -> x = y.
Proof.
  induction s as [|c s IH]; cbn [append]; intros H; [exact H|].
  injection H as H. auto.
Qed.

Lemma length_append (x y : string) :
  String.length (x ++ y) = (String.length x + String.length y)%nat.
Proof. induction x as [|c x IH]; cbn [append String.length]; [reflexivity|]. now rewrite IH. Qed.

Lemma append_cancel_r (s x y : string) : x ++ s = y ++ s -> x = y.
Proof.
  revert y. induction x as [|c x IH]; intros [|c' y] H; cbn [append] in H.
  - reflexivity.
  - exfalso. apply (f_equal String.length) in H.
    cbn [String.length] in H. rewrite length_append in H. lia.
  - exfalso. apply (f_equal String.length) in H.
    cbn [String.length] in H. rewrite length_append in H. lia.
  - injection H as -> H. f_equal. auto.
Qed.

(** The text fed to the script tells the key length apart, zero aside:
    for the same device, token and file name, two nonzero key lengths give
    the same text only if they are equal, and no nonzero key length gives
    the text of the example. *)
Theorem payload_determines_key (d : Z) (t : option string) (f : string) (a b : Z) :
  a <> 0 ->
  b <> 0 ->
  (inputs d t (KInt a) f = inputs d t (KInt b) f -> a = b) /\
  inputs d t (KInt a) f <> inputs d t (KStr "e") f.
Proof.
  intros Ha Hb.
  assert (Hk : forall v, v <> 0 -> key_field (KInt v) = str v).
  { intros v Hv. unfold key_field, truthy, format.
    apply Z.eqb_neq in Hv. now rewrite Hv. }
  assert (Hcancel : forall x y, inputs d t x f = inputs d t y f ->
                                key_field x = key_field y).
  { intros x y H. rewrite !inputs_key_field in H.
    unfold wire, fold_right in H.
    destruct (d =? 1); [destruct t|];
      repeat (apply append_cancel_l in H);
      apply append_cancel_r in H; exact H. }
  split.
  - intros H. apply Hcancel in H. rewrite !Hk in H by assumption.
    now apply str_inj.
  - intros H. apply Hcancel in H. rewrite Hk in H by assumption.
    exact (str_not_e a H).
Qed.

Lemma payload_determines_key_witness :
  inputs 1 (Some "tok") (KInt 197) "/r.csv" <> inputs 1 (Some "tok") (KStr "e") "/r.csv".
Proof.
  apply (payload_determines_key 1 (Some "tok") "/r.csv" 197 198); lia.
Defined.

(** ** The name of the script *)

Lemma prefix_append (old rest : string) : prefix old (old ++ rest) = true.
Proof.
  induction old as [|c old IH]; cbn [append prefix]; [now destruct rest|].
  destruct (ascii_dec c c) as [_|Hc]; [exact IH | contradiction].
Qed.

Lemma replace_from_skip (old new x rest : string) :
  replace_from old new (String.length x) (x ++ rest) = replace_from old new 0 rest.
Proof.
  induction x as [|c x IH]; cbn [String.length append]; [reflexivity|].
  cbn [replace_from]. exact IH.
Qed.

Lemma replace_from_no_match (old new a tail : string) :
  no_match old a tail = true ->
  replace_from old new 0 (a ++ tail) = a ++ replace_from old new 0 tail.
Proof.
  induction a as [|c a IH]; cbn [no_match append]; intros H; [reflexivity|].
  apply andb_true_iff in H. destruct H as [Hp Hn].
  apply negb_true_iff in Hp. cbn [append] in Hp.
  cbn [replace_from]. rewrite Hp, IH by assumption. reflexivity.
Qed.

Lemma replace_from_match (old new rest : string) :
  old <> "" ->
  replace_from old new 0 (old ++ rest) = new ++ replace_from old new 0 rest.
Proof.
  intros Hold. destruct old as [|c old]; [contradiction|].
  pose proof (prefix_append (String c old) rest) as Hp.
  cbn [append] in *. cbn [replace_from]. rewrite Hp.
  cbn [String.length pred]. now rewrite replace_from_skip.
Qed.

(** The script name is the notebook name with [.ipynb] replaced by [.py]
    wherever it occurs, not only at the end: a name [a ++ ".ipynb" ++ b]
    whose first occurrence follows [a] becomes [a ++ ".py"] followed by the
    rewritten [b]; in particular [a ++ ".ipynb"] becomes [a ++ ".py"]. *)
Theorem script_name_replaces_each_occurrence (a b : string) :
  no_match ".ipynb" a (".ipynb" ++ b) = true ->
  replace ".ipynb" ".py" (a ++ ".ipynb" ++ b) = a ++ ".py" ++ replace ".ipynb" ".py" b /\
  (b = "" -> replace ".ipynb" ".py" (a ++ ".ipynb") = a ++ ".py").
Proof.
  intros H. unfold replace.
  assert (E : replace_from ".ipynb" ".py" 0 (a ++ ".ipynb" ++ b) =
              a ++ ".py" ++ replace_from ".ipynb" ".py" 0 b).
  { rewrite replace_from_no_match by assumption.
    now rewrite replace_from_match by discriminate. }
  split; [exact E|].
  intros ->. exact E.
Qed.

Lemma script_name_replaces_each_occurrence_witness :
  replace ".ipynb" ".py" ("C:\lab\.ipynb_checkpoints\qkd" ++ ".ipynb")
  = "C:\lab\.py_checkpoints\qkd.py".
Proof.
  destruct (script_name_replaces_each_occurrence "C:\lab\" "_checkpoints\qkd.ipynb"
              eq_refl) as [H _].
  exact H.
Defined.

(** * The top level *)

(** ** Sequencing at the top level *)

Lemma tbind_returned {A B : Type} (m : T A) (f : A -> T B) (stdin rest : list string)
    (n c : nat) (a : A) (l : list TopEvent) :
  m stdin n = mkTop (Ret a) rest c l ->
  tbind m f stdin n =
  mkTop (tres (f a rest c)) (unread (f a rest c)) (tcalls (f a rest c))
    (l ++ tlog (f a rest c))%list.
Proof. intros H. unfold tbind. rewrite H. reflexivity. Qed.

Lemma tbind_raised {A B : Type} (m : T A) (f : A -> T B) (stdin rest : list string)
    (n c : nat) (e : string) (l : list TopEvent) :
  m stdin n = mkTop (Raised e) rest c l ->
  tbind m f stdin n = mkTop (Raised e) rest c l.
Proof. intros H. unfold tbind. rewrite H. reflexivity. Qed.

Lemma asks_weaken {A : Type} (P Q : A -> Prop) (m : T A) :
  (forall a, P a -> Q a) -> asks P m -> asks Q m.
Proof.
  intros HPQ Hm stdin n. destruct (Hm stdin n) as (Hc & Hl & Hr).
  repeat split; try assumption.
  destruct (tres (m stdin n)); auto.
Qed.

Lemma asks_tret {A : Type} (P : A -> Prop) (a : A) : P a -> asks P (tret a).
Proof. intros H stdin n. repeat split; [constructor | exact H]. Qed.

Lemma asks_raise {A : Type} (P : A -> Prop) (e : string) : asks P (raise e).
Proof. intros stdin n. repeat split. constructor. Qed.

Lemma asks_input (P : string -> Prop) (prompt : string) :
  (forall line, P line) -> asks P (input prompt).
Proof.
  intros H stdin n. unfold input.
  destruct stdin as [|line rest]; cbn [tcalls tlog tres]; repeat split;
    try (repeat constructor); apply H.
Qed.

Lemma asks_print (line : string) : asks (fun _ => True) (lift (print line)).
Proof. intros stdin n. repeat split. repeat constructor. Qed.

Lemma asks_tbind {A B : Type} (P : A -> Prop) (Q : B -> Prop) (m : T A) (f : A -> T B) :
  asks P m -> (forall a, P a -> asks Q (f a)) -> asks Q (tbind m f).
Proof.
  intros Hm Hf stdin n. unfold tbind.
  destruct (Hm stdin n) as (Hc & Hl & Hr).
  destruct (m stdin n) as [r u c l]; cbn [tres unread tcalls tlog] in *.
  destruct r as [a| |e]; cbn [tres unread tcalls tlog]; try (repeat split; assumption).
  destruct (Hf a Hr u c) as (Hc' & Hl' & Hr').
  repeat split; [congruence | apply Forall_app; split; assumption | exact Hr'].
Qed.

Lemma asks_try_bare {A : Type} (P : A -> Prop) (body handler : T A) :
  asks P body -> asks P handler -> asks P (try_bare body handler).
Proof.
  intros Hb Hh stdin n. unfold try_bare.
  destruct (Hb stdin n) as (Hc & Hl & Hr).
  destruct (body stdin n) as [r u c l]; cbn [tres unread tcalls tlog] in *.
  destruct (Hh u c) as (Hc' & Hl' & Hr').
  destruct r as [a| |e]; cbn [tres unread tcalls tlog];
    repeat split; try assumption; try congruence;
    apply Forall_app; split; assumption.
Qed.

Section Asking.

Variable py_int : string -> Z + string.
Variable getcwd : string.

Lemma asks_int (P : Z -> Prop) (s : string) : (forall z, P z) -> asks P (int py_int s).
Proof.
  intros H. unfold int. destruct (py_int s); [apply asks_tret, H | apply asks_raise].
Qed.

Lemma asks_token (d : Z) : asks (fun tok => d <> 1 -> tok = None) (ask_token d).
Proof.
  unfold ask_token. destruct (d =? 1) eqn:E.
  - apply Z.eqb_eq in E.
    apply asks_tbind with (P := fun _ => True); [now apply asks_input|].
    intros a _. cbv zeta.
    destruct (lower (if (a =? "")%string then "n" else a) =? "y")%string.
    + apply asks_tbind with (P := fun _ => True); [now apply asks_input|].
      intros tok _. apply asks_tret. intros Hd. contradiction.
    + apply asks_tbind with (P := fun _ => True); [apply asks_print|].
      intros _ _. now apply asks_tret.
  - now apply asks_tret.
Qed.

Lemma asks_range : asks (fun _ => True) (ask_range py_int).
Proof.
  unfold ask_range.
  apply asks_tbind with (P := fun _ => True).
  - apply asks_try_bare.
    + apply asks_tbind with (P := fun _ => True); [now apply asks_input|].
      intros a _. now apply asks_int.
    + apply asks_tbind with (P := fun _ => True); [apply asks_print|].
      intros _ _. now apply asks_tret.
  - intros b _. apply asks_tbind with (P := fun _ => True).
    + apply asks_try_bare.
      * apply asks_tbind with (P := fun _ => True); [now apply asks_input|].
        intros a _. now apply asks_int.
      * apply asks_tbind with (P := fun _ => True); [apply asks_print|].
        intros _ _. now apply asks_tret.
    + intros e _. now apply asks_tret.
Qed.

Lemma asks_key_length :
  asks (fun key =>
          (exists v, fst (fst key) = KInt v /\ snd (fst key) = None /\ snd key = None) \/
          (fst (fst key) = KStr "e" /\ snd (fst key) = None /\ snd key = None) \/
          (fst (fst key) = KStr "i" /\
           exists b e, snd (fst key) = Some b /\ snd key = Some e))
    (ask_key_length py_int).
Proof.
  unfold ask_key_length.
  apply asks_tbind with (P := fun _ => True); [now apply asks_input|].
  intros k _.
  destruct (negb (k =? "e")%string && negb (k =? "i")%string).
  - apply asks_tbind with (P := fun _ => True); [now apply asks_int|].
    intros v _. apply asks_tret. left. exists v. repeat split.
  - destruct (k =? "i")%string.
    + apply asks_tbind with (P := fun _ => True); [apply asks_range|].
      intros r _. apply asks_tret. right. right. split; [reflexivity|].
      exists (fst r), (snd r). split; reflexivity.
    + apply asks_tret. right. left. repeat split.
Qed.

Lemma asks_filename : asks (fun f => f <> "") (ask_filename getcwd).
Proof.
  unfold ask_filename.
  apply asks_tbind with (P := fun _ => True); [now apply asks_input|].
  intros a _. destruct (a =? "")%string eqn:E.
  - apply asks_tret. intros H.
    apply (f_equal String.length) in H. rewrite length_append in H.
    cbn [String.length] in H. lia.
  - apply asks_tret. now apply String.eqb_neq.
Qed.

Lemma asks_parameters : asks well_formed (ask_parameters py_int getcwd).
Proof.
  unfold ask_parameters.
  apply asks_tbind with (P := fun _ => True); [now apply asks_input|].
  intros nb _.
  apply asks_tbind with (P := fun _ => True); [now apply asks_input|].
  intros a _.
  apply asks_tbind with (P := fun _ => True).
  { destruct (a =? "")%string; [now apply asks_tret | now apply asks_int]. }
  intros lc _.
  apply asks_tbind with (P := fun _ => True); [now apply asks_input|].
  intros a' _.
  apply asks_tbind with (P := fun _ => True).
  { destruct (a' =? "")%string; [now apply asks_tret | now apply asks_int]. }
  intros d _.
  eapply asks_tbind; [apply asks_token|].
  intros tok Htok.
  eapply asks_tbind; [apply asks_key_length|].
  intros key Hkey.
  eapply asks_tbind; [apply asks_filename|].
  intros f Hf.
  apply asks_tret. unfold well_formed. cbn [execute_on_which_device token key_length
    filename given_range_begin given_range_end].
  repeat split; assumption.
Qed.

End Asking.

Lemma append_nil_r (s : string) : s ++ "" = s.
Proof. induction s as [|c s IH]; cbn [append]; [reflexivity | now rewrite IH]. Qed.

(** A notebook name in which [.ipynb] does not occur is not changed by the
    replacement: every invocation of the sweep then runs [python] on the
    notebook file itself. *)
Theorem notebook_without_extension_runs_itself (path_exists : string -> bool)
    (proc : nat -> ProcResult) (nb : string) (lc d : Z) (t : option string)
    (k : KeyLength) (f : string) (b e : Z) (n : nat) :
  no_match ".ipynb" nb "" = true ->
  replace ".ipynb" ".py" nb = nb /\
  Forall (fun ev => exists input r, ev = ESubprocess ["python"; nb] input r)
    (invocations (log (run_notebook_in_loop path_exists proc nb lc d t k f b e n))).
Proof.
  intros H.
  assert (E : replace ".ipynb" ".py" nb = nb).
  { unfold replace. rewrite <- (append_nil_r nb) at 1.
    rewrite replace_from_no_match by assumption. cbn [replace_from].
    apply append_nil_r. }
  split; [exact E|].
  destruct (is_interval k) eqn:Hk.
  - destruct k as [|v|s]; try discriminate Hk.
    cbn [is_interval] in Hk. apply String.eqb_eq in Hk. subst s.
    apply invocations_Forall.
    eapply Forall_impl; [|apply range_sweep_log_shape].
    cbv beta. intros ev H' Hev. destruct (H' Hev) as (key & r & _ & ->).
    rewrite E. unfold invocation. eauto.
  - apply invocations_Forall.
    eapply Forall_impl; [|apply (fixed_sweep_log_shape _ _ _ _ _ _ _ _ _ _ _ Hk)].
    cbv beta. intros ev H' Hev. destruct (H' Hev) as (r & ->).
    rewrite E. unfold invocation. eauto.
Qed.

Lemma notebook_without_extension_runs_itself_witness :
  Forall (fun ev => exists input r, ev = ESubprocess ["python"; "qkd.nb"] input r)
    (invocations
       (log (run_notebook_in_loop (fun _ => true) (fun _ => Completed 0)
               "qkd.nb" 2 0 None (KInt 42) "/r.csv" 0 1 0%nat))).
Proof.
  apply (notebook_without_extension_runs_itself (fun _ => true) (fun _ => Completed 0)
           "qkd.nb" 2 0 None (KInt 42) "/r.csv" 0 1 0%nat eq_refl).
Defined.

(** ** The prompts *)

(** The prompts leave well-formed parameters and spawn no process: whenever
    the asking part of the script returns, the token is [None] unless the
    device is 1, the key length is a number, ['e'] or ['i'], the range
    bounds are set exactly for ['i'], and the file name is not empty. *)
Theorem ask_parameters_well_formed (py_int : string -> Z + string) (getcwd : string)
    (stdin : list string) (n : nat) (c : Config) :
  tres (ask_parameters py_int getcwd stdin n) = Ret c ->
  well_formed c /\
  tcalls (ask_parameters py_int getcwd stdin n) = n /\
  Forall quiet (tlog (ask_parameters py_int getcwd stdin n)).
Proof.
  intros H. destruct (asks_parameters py_int getcwd stdin n) as (Hc & Hl & Hr).
  rewrite H in Hr. split; [exact Hr | split; assumption].
Qed.

Lemma ask_parameters_well_formed_witness :
  well_formed
    (mkConfig "qkd.ipynb" 10 1 (Some "tok") (KStr "i") "C:\lab\results_of_executions.csv"
       (Some 197) (Some 198)).
Proof.
  apply (ask_parameters_well_formed decimal "C:\lab"
           ["qkd.ipynb"; "10"; "1"; "Y"; "tok"; "i"; "197"; "oops"; ""] 0%nat).
  reflexivity.
Defined.

Section Range.

Variable py_int : string -> Z + string.

(** One prompt followed by [int] on the line read. *)
Lemma read_int (prompt x : string) (rest : list string) (n : nat) :
  tbind (input prompt) (fun a => int py_int a) (x :: rest) n =
  match py_int x with
  | inl v => mkTop (Ret v) rest n [TInput prompt (Some x)]
  | inr e => mkTop (Raised e) rest n [TInput prompt (Some x)]
  end.
Proof.
  rewrite (tbind_returned _ _ (x :: rest) rest n n x [TInput prompt (Some x)] eq_refl).
  unfold int. destruct (py_int x); reflexivity.
Qed.

(** One bound of the range: the integer typed, or the default with its
    line when [int] rejects the answer. *)
Lemma read_bound (prompt x : string) (rest : list string) (n : nat) (d : Z) :
  try_bare (tbind (input prompt) (fun a => int py_int a))
    (tbind (lift (print ("Error. Default value: " ++ str d))) (fun _ => tret d))
    (x :: rest) n =
  match py_int x with
  | inl v => mkTop (Ret v) rest n [TInput prompt (Some x)]
  | inr e =>
      mkTop (Ret d) rest n
        [TInput prompt (Some x); TEvent (EPrint ("Error. Default value: " ++ str d))]
  end.
Proof.
  unfold try_bare. rewrite read_int. destruct (py_int x); reflexivity.
Qed.




End Range.


(** What the two prompts of the range return when two lines can be read. *)
Lemma ask_range_two_lines (py_int : string -> Z + string) (x y : string)
    (rest : list string) (n : nat) :
  exists lg,
    ask_range py_int (x :: y :: rest) n =
    mkTop
      (Ret (match py_int x with inl v => v | inr _ => 0 end,
            match py_int y with
            | inl v => v
            | inr _ => match py_int x with inl v => v | inr _ => 0 end + 1
            end))
      rest n lg.
Proof.
  unfold ask_range.
  set (b := match py_int x with inl v => v | inr _ => 0 end).
  assert (H1 : exists l1,
            try_bare (tbind (input "Enter the first value of the range: ")
                        (fun a => int py_int a))
              (tbind (lift (print ("Error. Default value: " ++ str 0)))
                 (fun _ => tret 0))
              (x :: y :: rest) n = mkTop (Ret b) (y :: rest) n l1).
  { rewrite read_bound. unfold b. destruct (py_int x); eauto. }
  destruct H1 as [l1 H1].
  rewrite (tbind_returned _ _ _ _ _ _ _ _ H1).
  assert (H2 : exists l2,
            try_bare (tbind (input "Enter the last value of the range: ")
                        (fun a => int py_int a))
              (tbind (lift (print ("Error. Default value: " ++ str (b + 1))))
                 (fun _ => tret (b + 1)))
              (y :: rest) n =
            mkTop (Ret (match py_int y with inl v => v | inr _ => b + 1 end))
              rest n l2).
  { rewrite read_bound. destruct (py_int y); eauto. }
  destruct H2 as [l2 H2].
  rewrite (tbind_returned _ _ _ _ _ _ _ _ H2).
  cbn [tret tres unread tcalls tlog]. eauto.
Qed.

(** The defaults of the range: when two lines can be read, a first bound
    that [int] rejects becomes 0, a last bound that [int] rejects becomes
    the first bound plus 1 (so 1 when both are rejected), a bound [int]
    accepts is taken as it is, and both lines are consumed. *)
Theorem ask_range_defaults (py_int : string -> Z + string) (x y : string)
    (rest : list string) (n : nat) :
  tres (ask_range py_int (x :: y :: rest) n) =
    Ret (match py_int x with inl v => v | inr _ => 0 end,
         match py_int y with
         | inl v => v
         | inr _ => match py_int x with inl v => v | inr _ => 0 end + 1
         end) /\
  unread (ask_range py_int (x :: y :: rest) n) = rest.
Proof.
  destruct (ask_range_two_lines py_int x y rest n) as [lg Hrun].
  rewrite Hrun. split; reflexivity.
Qed.

(** A rejected last bound makes the sweep run two key lengths, not one:
    when [int] rejects the answer for the last bound, the bounds returned
    are [b] and [b + 1], and the range sweep called with them, once the
    notebook exists, its conversion returned and every invocation returns
    0, performs [loop_count] invocations for [b] followed by [loop_count]
    invocations for [b + 1] (the key-length field being the key in decimal,
    or ['e'] for a key 0). *)
Theorem rejected_last_bound_sweeps_two_keys (path_exists : string -> bool)
    (proc : nat -> ProcResult) (py_int : string -> Z + string)
    (nb : string) (r d : Z) (t : option string) (f x y : string)
    (rest : list string) (n0 n : nat) (b e c : Z) (msg : string) :
  py_int y = inr msg ->
  tres (ask_range py_int (x :: y :: rest) n0) = Ret (b, e) ->
  path_exists nb = true ->
  proc n = Completed c ->
  (forall j, (j < 2 * Z.to_nat r)%nat -> proc (S n + j)%nat = Completed 0) ->
  e = b + 1 /\
  invocations (log (run_notebook_in_loop path_exists proc nb r d t (KStr "i") f b e n)) =
  (repeat (ESubprocess ["python"; replace ".ipynb" ".py" nb]
             (Some (wire (fields d t (if b =? 0 then "e" else str b) f)))
             (Completed 0)) (Z.to_nat r)
   ++ repeat (ESubprocess ["python"; replace ".ipynb" ".py" nb]
                (Some (wire (fields d t
                               (if b + 1 =? 0 then "e" else str (b + 1)) f)))
                (Completed 0)) (Z.to_nat r))%list.
Proof.
  intros Hy Hask Hp Hc Hok.
  destruct (ask_range_two_lines py_int x y rest n0) as [lg Hrun].
  rewrite Hrun, Hy in Hask. cbn [tres] in Hask. injection Hask as Hb He.
  assert (Ee : e = b + 1) by (rewrite <- He, Hb; reflexivity).
  split; [exact Ee|]. clear Hb He Hrun. rewrite Ee. clear Ee.
  assert (Hlen : Z.to_nat (b + 1 + 1 - b) = 2%nat) by lia.
  rewrite (range_sweep_success path_exists proc nb r d t f b (b + 1) n c Hp Hc)
    by (rewrite Hlen; exact Hok).
  cbn [log].
  change (invocations (conversion nb (Completed c) :: EPrint ?p :: ?l))
    with (invocations l).
  rewrite invocations_sweep.
  unfold range. rewrite Hlen. cbn [seq map flat_map].
  change (Z.of_nat 0) with 0. change (Z.of_nat 1) with 1.
  rewrite Z.add_0_r, app_nil_r, !invocation_int. reflexivity.
Qed.

Lemma rejected_last_bound_sweeps_two_keys_witness :
  invocations
    (log (run_notebook_in_loop (fun _ => true) (fun _ => Completed 0)
            "qkd.ipynb" 2 0 None (KStr "i") "/r.csv" 5 6 0%nat))
  = [ESubprocess ["python"; "qkd.py"] (Some (wire ["0"; "5"; "/r.csv"])) (Completed 0);
     ESubprocess ["python"; "qkd.py"] (Some (wire ["0"; "5"; "/r.csv"])) (Completed 0);
     ESubprocess ["python"; "qkd.py"] (Some (wire ["0"; "6"; "/r.csv"])) (Completed 0);
     ESubprocess ["python"; "qkd.py"] (Some (wire ["0"; "6"; "/r.csv"])) (Completed 0)].
Proof.
  destruct (rejected_last_bound_sweeps_two_keys (fun _ => true) (fun _ => Completed 0)
              decimal "qkd.ipynb" 2 0 None "/r.csv" "5" "oops" ["/r.csv"] 0%nat 0%nat
              5 6 0 "invalid literal for int() with base 10: 'oops'"
              eq_refl eq_refl eq_refl eq_refl ltac:(reflexivity)) as [_ H].
  exact H.
Defined.

(** The key length has no default: an answer that is neither ['e'] nor
    ['i'] goes through [int], and when [int] rejects it (as it does the
    empty answer) the [ValueError] is raised out of the prompts with no
    further question asked. *)
Theorem ask_key_length_has_no_default (py_int : string -> Z + string)
    (k msg : string) (rest : list string) (n : nat) :
  k <> "e" ->
  k <> "i" ->
  py_int k = inr msg ->
  ask_key_length py_int (k :: rest) n =
  mkTop (Raised msg) rest n
    [TInput "Enter the initial key length, 'e' for default example or 'i' to select a range: "
       (Some k)].
Proof.
  intros He Hi Hk.
  apply String.eqb_neq in He. apply String.eqb_neq in Hi.
  unfold ask_key_length, tbind, input, int.
  cbn [tres unread tcalls tlog]. rewrite He, Hi, Hk. reflexivity.
Qed.

Lemma ask_key_length_has_no_default_witness :
  ask_key_length decimal ("" :: ["/r.csv"]) 0%nat =
  mkTop (Raised "invalid literal for int() with base 10: ''") ["/r.csv"] 0%nat
    [TInput "Enter the initial key length, 'e' for default example or 'i' to select a range: "
       (Some "")].
Proof.
  apply (ask_key_length_has_no_default decimal ""
           "invalid literal for int() with base 10: ''" ["/r.csv"] 0%nat);
    [discriminate | discriminate | reflexivity].
Defined.

(** ** The sweep at the top level *)

Section Top.

Variable path_exists : string -> bool.
Variable proc : nat -> ProcResult.
Variable py_int : string -> Z + string.
Variable getcwd : string.

(** The range bounds are read in range mode only: for any other key
    length the sweep is the same whatever stands for them. *)
Lemma range_bounds_unread (nb : string) (lc d : Z) (t : option string)
    (k : KeyLength) (f : string) (b e b' e' : Z) (n : nat) :
  is_interval k = false ->
  run_notebook_in_loop path_exists proc nb lc d t k f b e n =
  run_notebook_in_loop path_exists proc nb lc d t k f b' e' n.
Proof.
  intros Hk. unfold run_notebook_in_loop. rewrite Hk. reflexivity.
Qed.

(** The [try ... except Exception] of the last lines turns an exception of
    [run_notebook_in_loop] into a printed line and lets everything else
    through. *)
Lemma sweep_cases (c : Config) (stdin : list string) (n : nat) (r : Run unit) :
  r = run_notebook_in_loop path_exists proc (notebook_name c) (loop_count c)
        (execute_on_which_device c) (token c) (key_length c) (filename c)
        (bound (given_range_begin c)) (bound (given_range_end c)) n ->
  sweep path_exists proc c stdin n =
  match res r with
  | Raised e => mkTop (Ret tt) stdin (calls r) (map TEvent (log r ++ [EPrint e]))
  | Ret a => mkTop (Ret a) stdin (calls r) (map TEvent (log r))
  | SystemExit => mkTop SystemExit stdin (calls r) (map TEvent (log r))
  end.
Proof.
  intros ->. unfold sweep, try_exception, lift. cbn [tres unread tcalls tlog].
  destruct (run_notebook_in_loop _ _ _ _ _ _ _ _ _ _ n) as [rr cc ll].
  cbn [res calls log].
  destruct rr as [[]| |e]; cbn [res calls log print tres unread tcalls tlog];
    try reflexivity.
  now rewrite map_app.
Qed.

Lemma exit_iff_failed {A : Type} (r : Run A) :
  stops_at_first_failure r ->
  (res r = SystemExit /\ Exists (fun ev => failed ev = true) (invocations (log r))) \/
  (res r <> SystemExit /\ Forall (fun ev => failed ev = false) (invocations (log r))).
Proof.
  unfold stops_at_first_failure. destruct (res r).
  - intros H. right. split; [discriminate | exact H].
  - intros (pre & ev & Hl & Hpre & Hev). left. split; [reflexivity|].
    rewrite Hl. apply Exists_app. right. now constructor.
  - intros H. right. split; [discriminate | exact H].
Qed.

Lemma main_cases (stdin : list string) (n : nat) :
  main path_exists proc py_int getcwd stdin n =
  match tres (ask_parameters py_int getcwd stdin n) with
  | Ret c =>
      mkTop
        (tres (sweep path_exists proc c (unread (ask_parameters py_int getcwd stdin n)) n))
        (unread (sweep path_exists proc c (unread (ask_parameters py_int getcwd stdin n)) n))
        (tcalls (sweep path_exists proc c (unread (ask_parameters py_int getcwd stdin n)) n))
        (tlog (ask_parameters py_int getcwd stdin n)
         ++ tlog (sweep path_exists proc c
                    (unread (ask_parameters py_int getcwd stdin n)) n))%list
  | SystemExit =>
      mkTop SystemExit (unread (ask_parameters py_int getcwd stdin n)) n
        (tlog (ask_parameters py_int getcwd stdin n))
  | Raised e =>
      mkTop (Raised e) (unread (ask_parameters py_int getcwd stdin n)) n
        (tlog (ask_parameters py_int getcwd stdin n))
  end.
Proof.
  unfold main, tbind.
  destruct (asks_parameters py_int getcwd stdin n) as (Hc & _ & _).
  rewrite Hc. destruct (tres (ask_parameters py_int getcwd stdin n)); reflexivity.
Qed.

End Top.

(** How the sweep ends at the top level: by [exit()] exactly when an
    invocation of the experiment failed (nonzero return code, or not
    started); normally in every other case, also when the notebook is
    missing or the conversion raised. An exception never leaves it. *)
Theorem sweep_outcome (path_exists : string -> bool) (proc : nat -> ProcResult)
    (c : Config) (stdin : list string) (n : nat) :
  (tres (sweep path_exists proc c stdin n) = SystemExit /\
   Exists (fun ev => failed ev = true)
     (invocations
        (log (run_notebook_in_loop path_exists proc (notebook_name c) (loop_count c)
                (execute_on_which_device c) (token c) (key_length c) (filename c)
                (bound (given_range_begin c)) (bound (given_range_end c)) n)))) \/
  (tres (sweep path_exists proc c stdin n) = Ret tt /\
   Forall (fun ev => failed ev = false)
     (invocations
        (log (run_notebook_in_loop path_exists proc (notebook_name c) (loop_count c)
                (execute_on_which_device c) (token c) (key_length c) (filename c)
                (bound (given_range_begin c)) (bound (given_range_end c)) n)))).
Proof.
  rewrite (sweep_cases path_exists proc c stdin n _ eq_refl).
  destruct (exit_iff_failed _
              (run_notebook_in_loop_stops path_exists proc (notebook_name c)
                 (loop_count c) (execute_on_which_device c) (token c) (key_length c)
                 (filename c) (bound (given_range_begin c)) (bound (given_range_end c)) n))
    as [[Hres Hex]|[Hres Hall]].
  - left. rewrite Hres. split; [reflexivity | exact Hex].
  - right. split; [|exact Hall].
    destruct (res (run_notebook_in_loop _ _ _ _ _ _ _ _ _ _ n)) as [[]| |e];
      [reflexivity | contradiction | reflexivity].
Qed.

(** A conversion that cannot be started does not stop the script with an
    error: the exception raised by [run_notebook_in_loop] is caught by the
    last lines, its text is printed, and the script ends normally without
    having run the experiment. *)
Theorem sweep_conversion_failure_is_printed (path_exists : string -> bool)
    (proc : nat -> ProcResult) (c : Config) (stdin : list string) (n : nat)
    (msg : string) :
  path_exists (notebook_name c) = true ->
  proc n = Failed msg ->
  sweep path_exists proc c stdin n =
  mkTop (Ret tt) stdin (S n)
    [TEvent (conversion (notebook_name c) (Failed msg)); TEvent (EPrint msg)].
Proof.
  intros Hp Hc.
  rewrite (sweep_cases path_exists proc c stdin n _ eq_refl).
  replace (run_notebook_in_loop path_exists proc (notebook_name c) (loop_count c)
             (execute_on_which_device c) (token c) (key_length c) (filename c)
             (bound (given_range_begin c)) (bound (given_range_end c)) n)
    with (mkRun (A := unit) (Raised msg) (S n) [conversion (notebook_name c) (Failed msg)]).
  - reflexivity.
  - symmetry. unfold run_notebook_in_loop. rewrite Hp. cbn [negb].
    apply bind_raised. now apply subprocess_run_failed.
Qed.

Lemma sweep_conversion_failure_is_printed_witness :
  sweep (fun _ => true) (fun _ => Failed "jupyter: not found")
    (mkConfig "qkd.ipynb" 3 0 None (KInt 42) "/r.csv" None None) [] 0%nat =
  mkTop (Ret tt) [] 1%nat
    [TEvent (conversion "qkd.ipynb" (Failed "jupyter: not found"));
     TEvent (EPrint "jupyter: not found")].
Proof.
  apply (sweep_conversion_failure_is_printed (fun _ => true)
           (fun _ => Failed "jupyter: not found")
           (mkConfig "qkd.ipynb" 3 0 None (KInt 42) "/r.csv" None None) [] 0%nat
           "jupyter: not found"); reflexivity.
Defined.

(** ** The whole script *)

(** An exception raised while the parameters are asked for (an answer
    [int] rejects, the end of the input) is not caught by the script: it
    ends the script at that prompt, before any process was spawned. *)
Theorem main_asking_failure (path_exists : string -> bool) (proc : nat -> ProcResult)
    (py_int : string -> Z + string) (getcwd : string) (stdin : list string)
    (n : nat) (e : string) :
  tres (ask_parameters py_int getcwd stdin n) = Raised e ->
  main path_exists proc py_int getcwd stdin n =
  mkTop (Raised e) (unread (ask_parameters py_int getcwd stdin n)) n
    (tlog (ask_parameters py_int getcwd stdin n)) /\
  Forall quiet (tlog (main path_exists proc py_int getcwd stdin n)).
Proof.
  intros H. rewrite main_cases, H. split; [reflexivity|].
  cbn [tlog]. apply (asks_parameters py_int getcwd stdin n).
Qed.

Lemma main_asking_failure_witness :
  main (fun _ => true) (fun _ => Completed 0) decimal "C:\lab"
    ["qkd.ipynb"; "ten"; "0"; "e"; ""] 0%nat =
  mkTop (Raised "invalid literal for int() with base 10: 'ten'") ["0"; "e"; ""] 0%nat
    [TInput "Insert the name (including the path) of your file, adding the extension .ipynb: "
       (Some "qkd.ipynb");
     TInput "Enter the number of times to run the notebook: " (Some "ten")].
Proof.
  apply (main_asking_failure (fun _ => true) (fun _ => Completed 0) decimal "C:\lab"
           ["qkd.ipynb"; "ten"; "0"; "e"; ""] 0%nat
           "invalid literal for int() with base 10: 'ten'").
  reflexivity.
Defined.

(** The script asks first and runs afterwards: its log is the dialogue
    with the operator, in which no process is spawned, followed by the
    events of the sweep, in which nothing is asked. *)
Theorem main_asks_before_running (path_exists : string -> bool)
    (proc : nat -> ProcResult) (py_int : string -> Z + string) (getcwd : string)
    (stdin : list string) (n : nat) :
  exists asked ran,
    tlog (main path_exists proc py_int getcwd stdin n) = (asked ++ map TEvent ran)%list /\
    Forall quiet asked /\
    asked = tlog (ask_parameters py_int getcwd stdin n).
Proof.
  rewrite main_cases.
  destruct (asks_parameters py_int getcwd stdin n) as (_ & Hq & _).
  destruct (tres (ask_parameters py_int getcwd stdin n)) as [c| |e].
  - cbn [tlog].
    rewrite (sweep_cases path_exists proc c _ n _ eq_refl).
    destruct (res (run_notebook_in_loop _ _ _ _ _ _ _ _ _ _ n)) as [[]| |e];
      cbn [tlog]; eexists _, _; repeat split; assumption.
  - exists (tlog (ask_parameters py_int getcwd stdin n)), [].
    cbn [tlog map]. rewrite app_nil_r. repeat split; assumption.
  - exists (tlog (ask_parameters py_int getcwd stdin n)), [].
    cbn [tlog map]. rewrite app_nil_r. repeat split; assumption.
Qed.

(** The defaults of the prompts: when the operator gives the notebook,
    presses enter for the number of runs, the device and the results file,
    and types ['e'] for the key length, the script runs the example once on
    the simulator (device 0, no token) with the results file
    [results_of_executions.csv] in the current directory. *)
Theorem main_defaults (path_exists : string -> bool) (proc : nat -> ProcResult)
    (py_int : string -> Z + string) (getcwd nb : string) (rest : list string)
    (n : nat) (c : Z) :
  path_exists nb = true ->
  proc n = Completed c ->
  proc (S n) = Completed 0 ->
  main path_exists proc py_int getcwd (nb :: "" :: "" :: "e" :: "" :: rest) n =
  mkTop (Ret tt) rest (S (S n))
    [TInput "Insert the name (including the path) of your file, adding the extension .ipynb: "
       (Some nb);
     TInput "Enter the number of times to run the notebook: " (Some "");
     TInput "Enter 0 to use the simulator (default). Enter 1 to use the first available real quantum computer: "
       (Some "");
     TInput "Enter the initial key length, 'e' for default example or 'i' to select a range: "
       (Some "e");
     TInput "Insert the name of the file (including the path) where to save your results (pressing enter will lead to use the default location, the current folder, and a default name for your file: results_of_executions.csv):"
       (Some "");
     TEvent (conversion nb (Completed c));
     TEvent (EPrint (banner 1));
     TEvent (invocation (replace ".ipynb" ".py" nb) 0 None (KStr "e")
               (getcwd ++ "\results_of_executions.csv") (Completed 0))].
Proof.
  intros Hp Hc H0.
  rewrite main_cases.
  change (ask_parameters py_int getcwd (nb :: "" :: "" :: "e" :: "" :: rest) n)
    with (mkTop
            (Ret (mkConfig nb 1 0 None (KStr "e")
                    (getcwd ++ "\results_of_executions.csv") None None))
            rest n
            [TInput "Insert the name (including the path) of your file, adding the extension .ipynb: "
               (Some nb);
             TInput "Enter the number of times to run the notebook: " (Some "");
             TInput "Enter 0 to use the simulator (default). Enter 1 to use the first available real quantum computer: "
               (Some "");
             TInput "Enter the initial key length, 'e' for default example or 'i' to select a range: "
               (Some "e");
             TInput "Insert the name of the file (including the path) where to save your results (pressing enter will lead to use the default location, the current folder, and a default name for your file: results_of_executions.csv):"
               (Some "")]).
  cbn [tres unread tcalls tlog].
  rewrite (sweep_cases path_exists proc _ rest n _ eq_refl).
  cbn [notebook_name loop_count execute_on_which_device token key_length filename
       given_range_begin given_range_end bound].
  rewrite (run_notebook_in_loop_fixed path_exists proc nb 1 0 None (KStr "e") _ 0 0 n c
             Hp Hc eq_refl).
  rewrite executionLoop_success
    by (intros [|i] Hi;
        [rewrite Nat.add_0_r; exact H0 | change (Z.to_nat 1) with 1%nat in Hi; lia]).
  cbn [res calls log tres unread tcalls tlog]. change (Z.to_nat 1) with 1%nat.
  replace (S n + 1)%nat with (S (S n)) by lia. reflexivity.
Qed.

Lemma main_defaults_witness :
  main (fun _ => true) (fun _ => Completed 0) decimal "C:\lab"
    ["qkd.ipynb"; ""; ""; "e"; ""] 0%nat =
  mkTop (Ret tt) [] 2%nat
    [TInput "Insert the name (including the path) of your file, adding the extension .ipynb: "
       (Some "qkd.ipynb");
     TInput "Enter the number of times to run the notebook: " (Some "");
     TInput "Enter 0 to use the simulator (default). Enter 1 to use the first available real quantum computer: "
       (Some "");
     TInput "Enter the initial key length, 'e' for default example or 'i' to select a range: "
       (Some "e");
     TInput "Insert the name of the file (including the path) where to save your results (pressing enter will lead to use the default location, the current folder, and a default name for your file: results_of_executions.csv):"
       (Some "");
     TEvent (conversion "qkd.ipynb" (Completed 0));
     TEvent (EPrint "------ EXECUTION NUMBER 1 ------");
     TEvent (ESubprocess ["python"; "qkd.py"]
               (Some (wire ["0"; "e"; "C:\lab\results_of_executions.csv"]))
               (Completed 0))].
Proof.
  apply (main_defaults (fun _ => true) (fun _ => Completed 0) decimal "C:\lab"
           "qkd.ipynb" [] 0%nat 0); reflexivity.
Defined.
